(** * The [dcos package] subcommand

    A shallow embedding of [cli/dcoscli/package/main.py]: the describe,
    install, list and bundle commands, the helpers they call, and the
    properties of the package-lifecycle specification that hold (or do not
    hold) of them.

    Python's effects are made explicit.  A command is a value of [M A]: the
    trace of the observable actions it performed (messages published, members
    written to the archive, calls made to the scheduler and to the subcommand
    store) followed by its outcome (a returned value, a raised exception, or
    a loop that never ends).  The file system the bundler writes to is a
    finite map from paths to file contents that is passed in and out. *)

From Stdlib Require Import Ascii.
From stdpp Require Import gmap strings list sorting.

Set Warnings "-register-all".
Set Default Proof Using "Type".

(** ** Python values, exceptions and the trace monad *)

Module Py.

(** The values that travel through the command: JSON documents as Python
    loads them, and [None]. *)
Inductive pyval :=
| PNone
| PBool (b : bool)
| PStr (s : string)
| PList (l : list pyval)
| PDict (d : gmap string pyval).

(** Python's truth test, as used by [if x:] and by [and]/[or]. *)
Definition truthy (v : pyval) : bool :=
  match v with
  | PNone => false
  | PBool b => b
  | PStr s => negb (String.eqb s "")
  | PList l => match l with [] => false | _ => true end
  | PDict d => negb (bool_decide (d = ∅))
  end.

(** Truth test of a value of type [str | None]. *)
Definition truthy_str (o : option string) : bool :=
  match o with
  | None => false
  | Some s => negb (String.eqb s "")
  end.

(** [d.get(key)]: the value, or [None] when the key is absent. *)
Definition dict_get (d : gmap string pyval) (key : string) : pyval :=
  default PNone (d !! key).

Inductive exn :=
| DCOSException (msg : string)
| TypeError (msg : string)
| KeyError (key : string)
| IOError (path : string).

Inductive outcome (A : Type) :=
| Return (a : A)
| Raise (e : exn)
| Hang.
Arguments Return {A} a.
Arguments Raise {A} e.
Arguments Hang {A}.

(** What a command does that can be seen from outside. *)
Inductive event :=
| Publish (v : pyval)                        (* emitter.publish(v) *)
| PublishError (msg : string)                (* emitter.publish(errors.DefaultError(msg)) *)
| PublishTable (rows : list pyval) (json_ : bool)
                                             (* emitting.publish_table(emitter, rows, ...) *)
| StdoutWrite (s : string)                   (* sys.stdout.write(s) *)
| ZipWrite (arcname data : string)           (* zip_file.write(path, arcname) *)
| ResolvePackage (name : string)             (* package.resolve_package(name) *)
| InstallApp (name revision : string) (app_id : option string)
                                             (* package.install_app(pkg, revision, ...) *)
| InstallSubcommand (name revision : string) (* subcommand.install(pkg, revision, ...) *).

Definition M (A : Type) : Type := (list event * outcome A)%type.

Definition ret {A} (a : A) : M A := ([], Return a).
Definition raise {A} (e : exn) : M A := ([], Raise e).
Definition emit (e : event) : M unit := ([e], Return tt).

Definition bind {A B} (m : M A) (k : A → M B) : M B :=
  match m with
  | (t, Return a) => let '(t', o) := k a in (t ++ t', o)
  | (t, Raise e) => (t, Raise e)
  | (t, Hang) => (t, Hang)
  end.

Definition trace {A} (m : M A) : list event := m.1.
Definition result {A} (m : M A) : outcome A := m.2.

(** [for x in l: body(x)] *)
Fixpoint for_each {A} (l : list A) (body : A → M unit) : M unit :=
  match l with
  | [] => ret tt
  | x :: l' => bind (body x) (λ _, for_each l' body)
  end.

(** *** String builtins *)

Definition newline : Ascii.ascii := Ascii.ascii_of_nat 10.
Definition nl : string := String newline "".

Fixpoint last_char (s : string) : option Ascii.ascii :=
  match s with
  | "" => None
  | String c "" => Some c
  | String _ s' => last_char s'
  end.

(** [s[:-1]] *)
Fixpoint drop_last (s : string) : string :=
  match s with
  | "" => ""
  | String c "" => ""
  | String c s' => String c (drop_last s')
  end.

Definition endswith (s : string) (c : Ascii.ascii) : bool :=
  match last_char s with
  | Some c' => Ascii.eqb c' c
  | None => false
  end.

Definition startswith (s : string) (c : Ascii.ascii) : bool :=
  match s with
  | String c' _ => Ascii.eqb c' c
  | "" => false
  end.

(** [os.path.join(a, b)] on a POSIX system. *)
Definition path_join (a b : string) : string :=
  if startswith b "/"%char then b
  else if String.eqb a "" || endswith a "/"%char then a +:+ b
  else a +:+ "/" +:+ b.

(** [os.path.basename(p)]: what follows the last slash. *)
Fixpoint basename_from (p rest : string) : string :=
  match p with
  | "" => rest
  | String c p' =>
      if Ascii.eqb c "/"%char then basename_from p' p' else basename_from p' rest
  end.
Definition basename (p : string) : string := basename_from p p.

(** [s.replace(old, new, 1)] for one-character [old] and [new]. *)
Fixpoint replace_first (old new : Ascii.ascii) (s : string) : string :=
  match s with
  | "" => ""
  | String c s' =>
      if Ascii.eqb c old then String new s'
      else String c (replace_first old new s')
  end.

(** [sep.join(l)] *)
Definition str_join (sep : string) (l : list string) : string :=
  String.concat sep l.

Definition is_space (c : Ascii.ascii) : bool :=
  let n := Ascii.nat_of_ascii c in
  (n =? 32) || ((9 <=? n) && (n <=? 13)).

Fixpoint lstrip (s : string) : string :=
  match s with
  | String c s' => if is_space c then lstrip s' else s
  | "" => ""
  end.

Fixpoint rstrip (s : string) : string :=
  match s with
  | "" => ""
  | String c s' =>
      match rstrip s' with
      | "" => if is_space c then "" else String c ""
      | r => String c r
      end
  end.

(** [s.strip()]: ASCII white space is removed at both ends. *)
Definition strip (s : string) : string := rstrip (lstrip s).

Definition lower_char (c : Ascii.ascii) : Ascii.ascii :=
  let n := Ascii.nat_of_ascii c in
  if (65 <=? n) && (n <=? 90) then Ascii.ascii_of_nat (n + 32) else c.

(** [s.lower()] *)
Fixpoint lower (s : string) : string :=
  match s with
  | "" => ""
  | String c s' => String (lower_char c) (lower s')
  end.

(** [sorted(l)] on a list of strings: ascending, code point by code point. *)
Definition sorted (l : list string) : list string := merge_sort String.le l.

End Py.

Import Py.

Notation "x <- m ;; k" := (bind m (λ x, k))
  (at level 100, m at next level, right associativity, only parsing).
Notation "m ;;; k" := (bind m (λ _, k))
  (at level 100, right associativity, only parsing).

(** ** The file system *)

Module Fs.

(** The package directory is a tree that the bundler only reads. *)
Inductive node :=
| File (data : string)
| Dir (entries : list (string * node)).

(** What is inside a path: the entries of a directory, nothing otherwise. *)
Definition children (o : option node) : list (string * node) :=
  match o with
  | Some (Dir entries) => entries
  | _ => []
  end.

(** [os.listdir(d)]: the names, in whatever order the system lists them. *)
Definition listdir (entries : list (string * node)) : list string :=
  entries.*1.

(** The node that [os.path.join(d, name)] denotes. *)
Fixpoint entry (entries : list (string * node)) (name : string)
  : option node :=
  match entries with
  | [] => None
  | (n, x) :: rest => if String.eqb n name then Some x else entry rest name
  end.

(** [os.path.isdir(p)] *)
Definition isdir (o : option node) : bool :=
  match o with
  | Some (Dir _) => true
  | _ => false
  end.

(** [os.path.exists(p)] inside the package directory. *)
Definition exists_ (o : option node) : bool :=
  match o with
  | Some _ => true
  | None => false
  end.

(** Commands that also write files: the temporary archive and the output
    directory live in a flat map from paths to contents, threaded through. *)
Definition FsM (A : Type) : Type :=
  gmap string string → gmap string string * M A.

Definition lift {A} (m : M A) : FsM A := λ fs, (fs, m).

Definition fs_bind {A B} (m : FsM A) (k : A → FsM B) : FsM B := λ fs,
  match m fs with
  | (fs1, (t, Return a)) =>
      let '(fs2, (t', o)) := k a fs1 in (fs2, (t ++ t', o))
  | (fs1, (t, Raise e)) => (fs1, (t, Raise e))
  | (fs1, (t, Hang)) => (fs1, (t, Hang))
  end.

Definition fs_write (path data : string) : FsM unit := λ fs,
  (<[path := data]> fs, ret tt).

Definition fs_unlink (path : string) : FsM unit := λ fs,
  (delete path fs, ret tt).

Definition fs_exists (path : string) : FsM bool := λ fs,
  (fs, ret (bool_decide (is_Some (fs !! path)))).

Definition fs_read (path : string) : FsM string := λ fs,
  (fs, match fs !! path with
       | Some data => ret data
       | None => raise (IOError path)
       end).

(** [with resource: body]: the exit action runs however the body ends, and
    sees what the body did. *)
Definition with_exit {A} (body : FsM A) (exit : list event → FsM unit)
  : FsM A := λ fs,
  let '(fs1, (t, o)) := body fs in
  let '(fs2, _) := exit t fs1 in
  (fs2, (t, o)).

End Fs.

Import Fs.

Notation "x <<- m ;; k" := (fs_bind m (λ x, k))
  (at level 100, m at next level, right associativity, only parsing).

(** ** Collaborators of the bundler

    [dcos.util], [pkg_resources], [zipfile] and [hashlib] are used through
    their contracts only. *)

Record Util := {
  (** [util.load_json]: the document, or the error of a text that is not JSON *)
  load_json : string → exn + pyval;
  (** [util.validate_json(doc, schema)] against the schema stored at the
      given resource path: the list of violations, empty when valid *)
  validate_json : pyval → string → list string;
  (** [util.list_to_err]: one message out of the list of violations *)
  list_to_err : list string → string;
  (** whether the bytes are a well-formed PNG image *)
  is_png : string → bool;
  (** [str(v)] of a value that is not a string *)
  py_str : pyval → string;
  (** the bytes of the closed archive, given the members written to it *)
  zip_bytes : list (string * string) → string;
  (** [hashlib.sha256()]: a fresh hasher, [update] and [hexdigest] *)
  sha256_state : Type;
  sha256_new : sha256_state;
  sha256_update : sha256_state → string → sha256_state;
  sha256_hexdigest : sha256_state → string;
}.

(** ** The archive builder *)

Section Bundle.
Context (U : Util).

(** ['{}'.format(v)] *)
Definition format_value (v : pyval) : string :=
  match v with
  | PStr s => s
  | _ => py_str U v
  end.

(** [v[key]] *)
Definition subscript (v : pyval) (key : string) : M pyval :=
  match v with
  | PDict d =>
      match d !! key with
      | Some x => ret x
      | None => raise (KeyError key)
      end
  | _ => raise (TypeError "object is not subscriptable")
  end.

(** [util.open_file(path)] followed by reading it whole. *)
Definition open_file (fullpath : string) (target : option node) : M string :=
  match target with
  | Some (File data) => ret data
  | _ => raise (IOError fullpath)
  end.

(** Modelled from the spec: [util.validate_png] is not among the sources; an
    image file is "validated to be well-formed ... of the expected format
    before inclusion", and a failed validation aborts the build. *)
Definition validate_png (fullpath : string) (target : option node) : M unit :=
  data <- open_file fullpath target;;
  if is_png U data then ret tt
  else raise (DCOSException
                ("Unable to validate [" +:+ fullpath +:+ "] as a PNG file")).

(** [zip_file.write(fullpath, arcname=arcname)]: a file is stored with its
    bytes, a directory as an empty member whose name ends in a slash. *)
Definition zip_write (fullpath : string) (target : option node)
    (arcname : string) : M unit :=
  match target with
  | Some (File data) => emit (ZipWrite arcname data)
  | Some (Dir _) => emit (ZipWrite (arcname +:+ "/") "")
  | None => raise (IOError fullpath)
  end.

Definition extra_file_error (fullpath : string) : exn :=
  DCOSException
    ("Error bundling package. Extra file in package directory ["
       +:+ fullpath +:+ "]").

Definition missing_package_json_error (package_directory : string) : exn :=
  DCOSException
    ("The file package.json is required in the package directory ["
       +:+ package_directory +:+ "]").

Definition conflict_error (zip_file_name : string) : exn :=
  DCOSException ("Output file [" +:+ zip_file_name +:+ "] already exists").

Definition created_message (zip_file_name : string) : event :=
  PublishError ("Created DCOS Universe package [" +:+ zip_file_name +:+ "].").

Definition _validate_json_file (fullpath : string) (target : option node)
  : M pyval :=
  let filename := basename fullpath in
  schema_path <-
    (if bool_decide (filename ∈ ["command.json"; "config.json"; "package.json"])
     then ret ("data/universe-schema/" +:+ filename)
     else raise (DCOSException
                   ("Error bundling package. Unknown file in package directory ["
                      +:+ fullpath +:+ "]")));;
  text <- open_file fullpath target;;
  special_json <-
    (match load_json U text with
     | inr doc => ret doc
     | inl e => raise e
     end);;
  let errs := validate_json U special_json schema_path in
  match errs with
  | _ :: _ =>
      emit (PublishError ("Error validating JSON file [" +:+ fullpath +:+ "]"));;;
      raise (DCOSException (list_to_err U errs))
  | [] => ret special_json
  end.

(** [iter(lambda: f.read(4096), b'')]: the file in blocks of 4096 bytes. *)
Fixpoint read_chunks (fuel : nat) (data : string) : list string :=
  match fuel with
  | 0 => []
  | S fuel' =>
      match String.substring 0 4096 data with
      | "" => []
      | chunk =>
          chunk :: read_chunks fuel'
                     (String.substring 4096 (String.length data - 4096) data)
      end
  end.

(** The digest of a file read block by block. *)
Definition hash_chunks (chunks : list string) : string :=
  sha256_hexdigest U (foldl (sha256_update U) (sha256_new U) chunks).

Definition hash_data (data : string) : string :=
  hash_chunks (read_chunks (S (String.length data)) data).

Definition _hashfile (filename : string) : FsM string :=
  data <<- fs_read filename;;
  lift (ret (hash_data data)).

(** [for filename in sorted(os.listdir(directory)):] with, for each name, the
    node that [os.path.join(directory, filename)] denotes. *)
Definition walk (entries : list (string * node))
    (body : string → option node → M unit) : M unit :=
  for_each (sorted (listdir entries))
    (λ filename, body filename (entry entries filename)).

Definition uris_entry (uris_directory filename : string)
    (target : option node) : M unit :=
  let fullpath := path_join uris_directory filename in
  zip_write fullpath target ("assets/uris/" +:+ filename).

Definition _bundle_uris (uris_directory : string)
    (entries : list (string * node)) : M unit :=
  walk entries (uris_entry uris_directory).

Definition assets_entry (assets_directory filename : string)
    (target : option node) : M unit :=
  let fullpath := path_join assets_directory filename in
  if String.eqb filename "uris" && isdir target
  then _bundle_uris fullpath (children target)
  else raise (extra_file_error fullpath).

Definition _bundle_assets (assets_directory : string)
    (entries : list (string * node)) : M unit :=
  walk entries (assets_entry assets_directory).

Definition screenshots_entry (screenshot_directory filename : string)
    (target : option node) : M unit :=
  let fullpath := path_join screenshot_directory filename in
  validate_png fullpath target;;;
  zip_write fullpath target ("images/screenshots/" +:+ filename).

Definition _bundle_screenshots (screenshot_directory : string)
    (entries : list (string * node)) : M unit :=
  walk entries (screenshots_entry screenshot_directory).

Definition images_entry (images_directory filename : string)
    (target : option node) : M unit :=
  let fullpath := path_join images_directory filename in
  if String.eqb filename "icon-small.png"
     || String.eqb filename "icon-medium.png"
     || String.eqb filename "icon-large.png"
  then
    validate_png fullpath target;;;
    zip_write fullpath target ("images/" +:+ filename)
  else if String.eqb filename "screenshots" && isdir target
  then _bundle_screenshots fullpath (children target)
  else raise (extra_file_error fullpath).

Definition _bundle_images (images_directory : string)
    (entries : list (string * node)) : M unit :=
  walk entries (images_entry images_directory).

(** The body of the loop of [_bundle] over the package directory. *)
Definition bundle_entry (package_directory filename : string)
    (target : option node) : M unit :=
  let fullpath := path_join package_directory filename in
  if String.eqb filename "marathon.json.mustache"
  then zip_write fullpath target filename
  else if bool_decide
            (filename ∈ ["config.json"; "command.json"; "package.json"])
  then
    _validate_json_file fullpath target;;;
    zip_write fullpath target filename
  else if String.eqb filename "assets" && isdir target
  then _bundle_assets fullpath (children target)
  else if String.eqb filename "images" && isdir target
  then _bundle_images fullpath (children target)
  else raise (extra_file_error fullpath).

Definition bundle_walk (package_directory : string)
    (entries : list (string * node)) : M unit :=
  walk entries (bundle_entry package_directory).

(** The members that the trace of a walk put in the archive, in order. *)
Definition zip_members (t : list event) : list (string * string) :=
  omap (λ e, match e with
             | ZipWrite arcname data => Some (arcname, data)
             | _ => None
             end) t.

(** [with tempfile.NamedTemporaryFile() as temp_file]: the file exists, empty,
    for the time of the body and is deleted when the body is left. *)
Definition with_named_temporary_file {A} (temp_file : string) (body : FsM A)
  : FsM A :=
  _ <<- fs_write temp_file "";;
  with_exit body (λ _, fs_unlink temp_file).

(** [with zipfile.ZipFile(name, mode='w', ...) as zip_file]: leaving the block
    closes the archive, which puts the members written so far on disk. *)
Definition with_zip_file {A} (name : string) (body : M A) : FsM A :=
  with_exit (lift body) (λ t, fs_write name (zip_bytes U (zip_members t))).

(** Modelled from the spec: [util.sh_copy] is not among the sources; it puts
    the finished archive "into place" at the destination. *)
Definition sh_copy (src dst : string) : FsM unit :=
  data <<- fs_read src;;
  fs_write dst data.

Definition zip_file_name_of (output_directory : string)
    (name version digest : pyval) : string :=
  path_join output_directory
    (format_value name +:+ "-" +:+ format_value version +:+ "-"
       +:+ format_value digest +:+ ".zip").

(** [_bundle(package_directory, output_directory)].  [cwd] is [os.getcwd()],
    [temp_file] the name the system picks for the temporary file, [src] what
    [package_directory] denotes. *)
Definition _bundle (package_directory : string)
    (output_directory : option string)
    (cwd temp_file : string) (src : option node) : FsM Z :=
  let output_directory := default cwd output_directory in
  let entries := children src in
  if negb (exists_ (entry entries "package.json"))
  then lift (raise (missing_package_json_error package_directory))
  else
    package_json <<-
      lift (_validate_json_file (path_join package_directory "package.json")
              (entry entries "package.json"));;
    zip_file_name <<-
      with_named_temporary_file temp_file (
        _ <<- with_zip_file temp_file (bundle_walk package_directory entries);;
        name <<- lift (subscript package_json "name");;
        version <<- lift (subscript package_json "version");;
        digest <<- _hashfile temp_file;;
        let zip_file_name :=
          zip_file_name_of output_directory name version (PStr digest) in
        taken <<- fs_exists zip_file_name;;
        if (taken : bool)
        then lift (raise (conflict_error zip_file_name))
        else
          _ <<- sh_copy temp_file zip_file_name;;
          lift (ret zip_file_name));;
    _ <<- lift (emit (created_message zip_file_name));;
    lift (ret 0%Z).

End Bundle.

(** ** Packages and revisions *)

Module Package.

(** One versioned snapshot of a package: its descriptor and its optional
    templates. *)
Record Revision := {
  rev_id : string;
  rev_version : string;
  rev_package_json : gmap string pyval;
  rev_config_json : option pyval;
  rev_command_template : option string;
  rev_marathon_template : option string;
}.

(** A package as one source provides it, with its revisions in the order of
    the source's revision map. *)
Record t := {
  name : string;
  revisions : list Revision;
}.

(** Modelled from the spec: [Package.package_revisions_map] is not among the
    sources.  "The map is source-provided; the resolver does not invent
    ordering beyond 'latest declared'": an ordered map from revision to
    version that lists the revisions as the source has them, the latest
    declared first. *)
Definition package_revisions_map (pkg : t) : list (string * string) :=
  (λ r, (rev_id r, rev_version r)) <$> revisions pkg.

(** Modelled from the spec: [Package.latest_package_revision] is not among
    the sources.  "If [version] is omitted, selects the newest available
    revision by the source's own version map"; "if [version] is supplied but
    absent from the revision map, returns not-found".  The newest revision
    is the first of the map, and of several revisions of one version the
    newest is taken. *)
Definition latest_package_revision (pkg : t) (package_version : option string)
  : option Revision :=
  match package_version with
  | None => head (revisions pkg)
  | Some v =>
      head (filter (λ r, rev_version r = v) (revisions pkg))
  end.

(** Modelled from the spec: a revision "declares" a template when it carries
    the optional file. *)
Definition has_marathon_definition (r : Revision) : bool :=
  bool_decide (is_Some (rev_marathon_template r)).
Definition has_command_definition (r : Revision) : bool :=
  bool_decide (is_Some (rev_command_template r)).

End Package.

Import Package.

(** ** Collaborators of describe, install and list *)

Record Cluster := {
  (** [package.resolve_package(name)] over the configured sources *)
  resolve_package : string → option Package.t;
  (** [util.open_file] then [util.load_json] on an options file *)
  read_json_file : string → exn + pyval;
  (** [pkg.options(revision, user_options)]: merged and validated options *)
  package_options : Revision → pyval → exn + pyval;
  (** rendering of a template with the options *)
  render_template : string → pyval → exn + pyval;
  (** [package.install_app]: the error of the scheduler, if it refuses *)
  install_app : Package.t → Revision → pyval → option string → option exn;
  (** [subcommand.install]: the error of the local store, if any *)
  subcommand_install : Package.t → Revision → pyval → option exn;
  (** [subcommand.get_package_commands(name)]: paths of the executables *)
  get_package_commands : string → list string;
  (** the exception that [Package] raises when it is asked for a file that
      the revision does not have *)
  read_error : Revision → string → exn;
}.

(** [d.get(key)] on an ordered map from strings to strings *)
Fixpoint assoc_get (d : list (string * string)) (key : string)
  : option string :=
  match d with
  | [] => None
  | (k, v) :: d' => if String.eqb k key then Some v else assoc_get d' key
  end.

Definition of_sum {A} (r : exn + A) : M A :=
  match r with
  | inr a => ret a
  | inl e => raise e
  end.

Definition of_failure (r : option exn) : M unit :=
  match r with
  | None => ret tt
  | Some e => raise e
  end.

(** [x[:-1]] when [x] is not empty and ends with a newline, [x] otherwise *)
Definition strip_newline (template : string) : string :=
  if negb (String.eqb template "") && endswith template newline
  then drop_last template
  else template.

Section Commands.
Context (C : Cluster).

Definition _user_options (path : option string) : M pyval :=
  match path with
  | None => ret (PDict ∅)
  | Some path => of_sum (read_json_file C path)
  end.

(** The loop of [_confirm], one line of standard input per turn.  At the end
    of input [readline()] returns the empty string for ever, which is never a
    valid response. *)
Fixpoint confirm_loop (prompt : string) (stdin : list string) : M bool :=
  match stdin with
  | [] =>
      emit (StdoutWrite (prompt +:+ " [yes/no] "));;;
      emit (Publish (PStr "'' is not a valid response."));;;
      ([], Hang)
  | line :: stdin' =>
      emit (StdoutWrite (prompt +:+ " [yes/no] "));;;
      let response := lower (strip line) in
      if String.eqb response "yes" || String.eqb response "y" then ret true
      else if String.eqb response "no" || String.eqb response "n" then ret false
      else
        emit (Publish (PStr ("'" +:+ response +:+ "' is not a valid response.")));;;
        confirm_loop prompt stdin'
  end.

Definition _confirm (prompt : string) (yes : bool) (stdin : list string)
  : M bool :=
  if yes then ret true else confirm_loop prompt stdin.

(** ['{}'.format(x)] for [x] of type [str | None] *)
Definition format_opt (o : option string) : string :=
  default "None" o.

Definition package_not_found_install (package_name : string) : string :=
  "Package [" +:+ package_name +:+ "] not found" +:+ nl
    +:+ "You may need to run 'dcos package update' to update your "
    +:+ "repositories".

Definition version_not_available (package_version : option string)
    (package_name : string) : string :=
  "Version " +:+ format_opt package_version +:+ " of package ["
    +:+ package_name +:+ "] is not available".

(** The blocks of [_install], in the order of the source. *)

(** Pre-install notes and the confirmation: whether to go on. *)
Definition confirm_pre_install (pkg_json : gmap string pyval) (yes : bool)
    (stdin : list string) : M bool :=
  let pre_install_notes := dict_get pkg_json "preInstallNotes" in
  if truthy pre_install_notes
  then
    emit (Publish pre_install_notes);;;
    confirmed <- _confirm "Continue installing?" yes stdin;;
    if (confirmed : bool) then ret true
    else emit (Publish (PStr "Exiting installation."));;; ret false
  else ret true.

(** [if app and pkg.has_marathon_definition(pkg_revision):] *)
Definition install_marathon_step (pkg : Package.t) (pkg_revision : Revision)
    (options : pyval) (package_version app_id : option string) (app : bool)
  : M unit :=
  if app && has_marathon_definition pkg_revision
  then
    let msg :=
      "Installing Marathon app for package [" +:+ Package.name pkg
        +:+ "] version [" +:+ format_opt package_version +:+ "]" in
    let msg :=
      match app_id with
      | Some id => msg +:+ " with app id [" +:+ id +:+ "]"
      | None => msg
      end in
    emit (Publish (PStr msg));;;
    emit (InstallApp (Package.name pkg) (rev_id pkg_revision) app_id);;;
    of_failure (install_app C pkg pkg_revision options app_id)
  else ret tt.

(** [if cli and pkg.has_command_definition(pkg_revision):] *)
Definition install_subcommand_step (package_name : string) (pkg : Package.t)
    (pkg_revision : Revision) (options : pyval)
    (package_version : option string) (cli : bool) : M unit :=
  if cli && has_command_definition pkg_revision
  then
    emit (Publish (PStr
      ("Installing CLI subcommand for package [" +:+ Package.name pkg
         +:+ "] version [" +:+ format_opt package_version +:+ "]")));;;
    emit (InstallSubcommand (Package.name pkg) (rev_id pkg_revision));;;
    of_failure (subcommand_install C pkg pkg_revision options);;;
    let subcommand_paths := get_package_commands C package_name in
    let new_commands :=
      (λ p, replace_first "-" " " (basename p)) <$> subcommand_paths in
    match new_commands with
    | [] => ret tt
    | _ :: _ =>
        let commands := str_join ", " new_commands in
        let plural :=
          if bool_decide (1 < length new_commands) then "s" else "" in
        emit (Publish (PStr
          ("New command" +:+ plural +:+ " available: " +:+ commands)))
    end
  else ret tt.

Definition show_post_install_notes (pkg_json : gmap string pyval) : M unit :=
  let post_install_notes := dict_get pkg_json "postInstallNotes" in
  if truthy post_install_notes
  then emit (Publish post_install_notes)
  else ret tt.

Definition _install (package_name : string) (package_version : option string)
    (options_path : option string) (app_id : option string)
    (cli app yes : bool) (stdin : list string) : M Z :=
  let both := negb cli && negb app in
  let cli := if both then true else cli in
  let app := if both then true else app in
  emit (ResolvePackage package_name);;;
  match resolve_package C package_name with
  | None => raise (DCOSException (package_not_found_install package_name))
  | Some pkg =>
  match latest_package_revision pkg package_version with
  | None =>
      raise (DCOSException
               (match package_version with
                | Some _ => version_not_available package_version package_name
                | None => "Package [" +:+ package_name +:+ "] not available"
                end))
  | Some pkg_revision =>
  user_options <- _user_options options_path;;
  let pkg_json := rev_package_json pkg_revision in
  proceed <- confirm_pre_install pkg_json yes stdin;;
  if negb proceed then ret 0%Z
  else
  options <- of_sum (package_options C pkg_revision user_options);;
  let revision_map := package_revisions_map pkg in
  let package_version := assoc_get revision_map (rev_id pkg_revision) in
  install_marathon_step pkg pkg_revision options package_version app_id app;;;
  install_subcommand_step package_name pkg pkg_revision options
    package_version cli;;;
  show_post_install_notes pkg_json;;;
  ret 0%Z
  end end.

Definition package_not_found_describe (package_name : string) : string :=
  "Package [" +:+ package_name +:+ "] not found".

(** [sep.join(v)] for a value that has to be a list of strings *)
Definition join_value (sep : string) (v : pyval) : M string :=
  match v with
  | PList l =>
      if forallb (λ x, match x with PStr _ => true | _ => false end) l
      then ret (str_join sep (omap (λ x, match x with
                                         | PStr s => Some s
                                         | _ => None
                                         end) l))
      else raise (TypeError "sequence item: expected str instance")
  | _ => raise (TypeError "can only join an iterable")
  end.

(** Modelled from the spec: the getters of [Package] ([command_template],
    [marathon_template], [config_json] and the rendering [command_json] and
    [marathon_json]) are not among the sources.  A revision "carries ...
    optional [config.json], optional [command.json], optional
    [marathon.json.mustache]"; a getter returns the file of the revision, and
    raises when the revision does not have it. *)
Definition revision_file {A} (pkg_revision : Revision) (filename : string)
    (content : option A) : M A :=
  match content with
  | Some c => ret c
  | None => raise (read_error C pkg_revision filename)
  end.

Definition command_template (pkg_revision : Revision) : M string :=
  revision_file pkg_revision "command.json" (rev_command_template pkg_revision).

Definition marathon_template (pkg_revision : Revision) : M string :=
  revision_file pkg_revision "marathon.json.mustache"
    (rev_marathon_template pkg_revision).

Definition config_json (pkg_revision : Revision) : M pyval :=
  revision_file pkg_revision "config.json" (rev_config_json pkg_revision).

Definition command_json (pkg_revision : Revision) (options : pyval) : M pyval :=
  template <- command_template pkg_revision;;
  of_sum (render_template C template options).

Definition marathon_json (pkg_revision : Revision) (options : pyval) : M pyval :=
  template <- marathon_template pkg_revision;;
  of_sum (render_template C template options).

Definition _describe (package_name : string) (app cli : bool)
    (options_path : option string) (render package_versions : bool)
    (package_version : option string) (config : bool) : M Z :=
  let render := if truthy_str options_path then true else render in
  if package_versions
     && (app || cli || truthy_str options_path || render
         || truthy_str package_version || config)
  then raise (DCOSException
                ("If --package-versions is provided, no other option can be "
                   +:+ "provided"))
  else
  emit (ResolvePackage package_name);;;
  match resolve_package C package_name with
  | None => raise (DCOSException (package_not_found_describe package_name))
  | Some pkg =>
  match latest_package_revision pkg package_version with
  | None =>
      raise (DCOSException (version_not_available package_version package_name))
  | Some pkg_revision =>
  let pkg_json := rev_package_json pkg_revision in
  pkg_json <-
    (match package_version with
     | None =>
         let revision_map := package_revisions_map pkg in
         let pkg_versions := PList (PStr <$> revision_map.*2) in
         match pkg_json !! "version" with
         | Some _ => ret (<["versions" := pkg_versions]> (delete "version" pkg_json))
         | None => raise (KeyError "version")
         end
     | Some _ => ret pkg_json
     end);;
  (if package_versions
   then
     versions <- subscript (PDict pkg_json) "versions";;
     text <- join_value nl versions;;
     emit (Publish (PStr text))
   else if cli || app || config
   then
     user_options <- _user_options options_path;;
     options <- of_sum (package_options C pkg_revision user_options);;
     (if cli
      then
        cli_output <-
          (if render
           then command_json pkg_revision options
           else
             cli_output <- command_template pkg_revision;;
             ret (PStr (strip_newline cli_output)));;
        emit (Publish cli_output)
      else ret tt);;;
     (if app
      then
        app_output <-
          (if render
           then marathon_json pkg_revision options
           else
             app_output <- marathon_template pkg_revision;;
             ret (PStr (strip_newline app_output)));;
        emit (Publish app_output)
      else ret tt);;;
     (if config
      then
        config_output <- config_json pkg_revision;;
        emit (Publish config_output)
      else ret tt)
   else emit (Publish (PDict (rev_package_json pkg_revision))));;;
  ret 0%Z
  end end.

(** *** Listing installed packages *)

(** [v == x] for a string [x] *)
Definition is_str (x : string) (v : pyval) : bool :=
  match v with
  | PStr s => String.eqb s x
  | _ => false
  end.

(** [x in container] *)
Definition py_in (x : string) (container : pyval) : M bool :=
  match container with
  | PList l =>
      ret (existsb (is_str x) l)
  | PDict d => ret (bool_decide (is_Some (d !! x)))
  | PStr s => ret (bool_decide (is_Some (String.index 0 x s)))
  | PNone => raise (TypeError "argument of type 'NoneType' is not iterable")
  | PBool _ => raise (TypeError "argument of type 'bool' is not iterable")
  end.

Definition _matches_package_name (name : option string)
    (pkg_info : gmap string pyval) : M bool :=
  match name with
  | None => ret true
  | Some name =>
      v <- subscript (PDict pkg_info) "name";;
      ret (match v with PStr s => String.eqb s name | _ => false end)
  end.

Definition _matches_app_id (app_id : option string)
    (pkg_info : gmap string pyval) : M bool :=
  match app_id with
  | None => ret true
  | Some app_id => py_in app_id (dict_get pkg_info "apps")
  end.

(** [[app for app in apps if app == app_id]] *)
Definition only_app (app_id : string) (apps : pyval) : M pyval :=
  match apps with
  | PList l =>
      ret (PList (List.filter (is_str app_id) l))
  | PDict d =>
      ret (PList (PStr <$> List.filter (String.eqb app_id) (map_to_list d).*1))
  | PStr s =>
      ret (PList (PStr <$> List.filter (String.eqb app_id)
                             ((λ c, String c "") <$> String.list_ascii_of_string s)))
  | _ => raise (TypeError "object is not iterable")
  end.

Fixpoint list_results (installed : list (gmap string pyval))
    (app_id package_name : option string) : M (list pyval) :=
  match installed with
  | [] => ret []
  | pkg_info :: installed' =>
      by_name <- _matches_package_name package_name pkg_info;;
      keep <- (if (by_name : bool) then _matches_app_id app_id pkg_info
               else ret false);;
      row <-
        (if (keep : bool)
         then
           pkg_info <-
             (if truthy_str app_id
              then
                apps <- subscript (PDict pkg_info) "apps";;
                shown <- only_app (default "" app_id) apps;;
                ret (<["apps" := shown]> pkg_info)
              else ret pkg_info);;
           ret [PDict pkg_info]
         else ret []);;
      rest <- list_results installed' app_id package_name;;
      ret (row ++ rest)
  end.

(** [_list]; [installed] is what [package.installed_packages] reports, each
    package as its [dict()]. *)
Definition _list (installed : list (gmap string pyval)) (json_ : bool)
    (app_id package_name : option string) : M Z :=
  results <- list_results installed app_id package_name;;
  match results, json_ with
  | [], false =>
      raise (DCOSException
               ("There are currently no installed packages. "
                  +:+ "Please use `dcos package install` to install a package."))
  | _, _ => emit (PublishTable results json_);;; ret 0%Z
  end.

End Commands.

(** ** Searching the package index *)

(** [any(result['packages'] for result in results)] *)
Fixpoint any_packages (results : list (gmap string pyval)) : M bool :=
  match results with
  | [] => ret false
  | result :: results' =>
      packages <- subscript (PDict result) "packages";;
      if truthy packages then ret true else any_packages results'
  end.

(** [_search(json_, query)]; [search] is [package.search] over the configured
    sources, each index entry as its [as_dict()]. *)
Definition _search (search : string → exn + list (gmap string pyval))
    (json_ : bool) (query : option string) : M Z :=
  let query := if truthy_str query then default "" query else "" in
  results <- of_sum (search query);;
  found <- any_packages results;;
  if found || json_
  then emit (PublishTable (PDict <$> results) json_);;; ret 0%Z
  else raise (DCOSException "No packages found.").

(** ** The entry point of [dcos package] *)

(** What the process does: the events of the command, and the exception that
    [main] publishes. *)
Inductive top_event :=
| Inner (e : event)
| PublishException (e : exn).

(** [main()]: a [DCOSException] of the command is published and becomes the
    exit status 1; any other exception passes. *)
Definition main (_main : M Z) : list top_event * outcome Z :=
  match _main with
  | (t, Raise (DCOSException msg)) =>
      ((Inner <$> t) ++ [PublishException (DCOSException msg)], Return 1%Z)
  | (t, o) => (Inner <$> t, o)
  end.

(** ** The [dcos] launcher *)

Module Launcher.

(** What [dcoscli/main.py] takes from the rest of the system. *)
Record Host := {
  (** [constants.VALID_LOG_LEVEL_VALUES] *)
  VALID_LOG_LEVEL_VALUES : list string;
  (** the names of the environment variables in [constants] *)
  DCOS_LOG_LEVEL_ENV : string;
  DCOS_DEBUG_ENV : string;
  DCOS_SSL_VERIFY_ENV : string;
  (** ['{!r}'.format(x)] of a string and of the list of levels *)
  repr_str : string → string;
  repr_levels : list string → string;
  (** [str(v)] of a configuration value *)
  str_value : pyval → string;
  (** [auth.check_if_user_authenticated()] *)
  check_if_user_authenticated : bool;
  (** [util.get_config()] *)
  get_config : gmap string pyval;
  (** [subcommand.command_executables(command)]: the path of the executable,
      or the error for a command that is not installed *)
  command_executables : string → exn + string;
  (** the status that the subprocess ends with, as [analytics] returns it *)
  wait : string → list string → Z;
}.

(** What the launcher does besides changing its environment. *)
Inductive action :=
| Say (msg : string)                               (* emitter.publish(msg) *)
| ForceAuth                                        (* auth.force_auth() *)
| Spawn (executable : string) (argv : list string) (* Popen([executable, ...]) *).

(** The arguments as docopt returns them. *)
Record Args := {
  arg_log_level : option string;     (* args['--log-level'] *)
  arg_debug : bool;                  (* args['--debug'] *)
  arg_command : option string;       (* args['<command>'] *)
  arg_args : list string;            (* args['<args>'] *)
}.

Section Launcher.
Context (H : Host).

Definition unknown_log_level (log_level : string) : string :=
  "Log level set to an unknown value " +:+ repr_str H log_level
    +:+ ". Valid values are " +:+ repr_levels H (VALID_LOG_LEVEL_VALUES H).

(** [_config_log_level_environ(log_level)]: the environment after the call,
    what was said, and the value returned. *)
Definition _config_log_level_environ (log_level : string)
    (environ : gmap string string)
  : gmap string string * list action * bool :=
  let log_level := lower log_level in
  if bool_decide (log_level ∈ VALID_LOG_LEVEL_VALUES H)
  then (<[DCOS_LOG_LEVEL_ENV H := log_level]> environ, [], true)
  else (environ, [Say (unknown_log_level log_level)], false).

Definition set_ssl_info_env_vars (config : gmap string pyval)
    (environ : gmap string string) : gmap string string :=
  match config !! "core.ssl_verify" with
  | Some value =>
      if negb (truthy_str (environ !! DCOS_SSL_VERIFY_ENV H))
      then <[DCOS_SSL_VERIFY_ENV H := str_value H value]> environ
      else environ
  | None => environ
  end.

Definition _main (args : Args) (environ : gmap string string)
  : gmap string string * (list action * outcome Z) :=
  let '(environ, said, ok) :=
    match arg_log_level args with
    | Some log_level =>
        if String.eqb log_level "" then (environ, [], true)
        else _config_log_level_environ log_level environ
    | None => (environ, [], true)
    end in
  if negb ok then (environ, (said, Return 1%Z))
  else
    let environ :=
      if arg_debug args then <[DCOS_DEBUG_ENV H := "true"]> environ
      else environ in
    let auth :=
      if negb (bool_decide (arg_command args = Some "config"))
         && negb (check_if_user_authenticated H)
      then [ForceAuth] else [] in
    let environ := set_ssl_info_env_vars (get_config H) environ in
    let command :=
      if truthy_str (arg_command args) then default "" (arg_command args)
      else "help" in
    match command_executables H command with
    | inl e => (environ, (said ++ auth, Raise e))
    | inr executable =>
        (environ,
         (said ++ auth ++ [Spawn executable (command :: arg_args args)],
          Return (wait H executable (command :: arg_args args))))
    end.

(** [main()] of the launcher: a [DCOSException] is published and the status
    is 1. *)
Definition main (args : Args) (environ : gmap string string)
  : gmap string string * (list action * outcome Z) :=
  match _main args environ with
  | (environ', (done, Raise (DCOSException msg))) =>
      (environ', (done ++ [Say msg], Return 1%Z))
  | r => r
  end.

End Launcher.
End Launcher.


(** ** A small world to run the commands in

    Stand-ins for the collaborators, simple enough to evaluate: a document is
    "JSON" when it is not empty and is valid unless it reads [invalid]; an
    image is a PNG when it starts with [PNG]; the archive is the members laid
    end to end and its digest is the number of bytes. *)

Module Demo.

Definition descriptor (text : string) : pyval :=
  PDict (<["name" := PStr text]> (<["version" := PStr "1.0"]> ∅)).

Definition member_bytes (m : string * string) : string :=
  "<" +:+ m.1 +:+ ">" +:+ m.2.

Fixpoint digits (fuel n : nat) : string :=
  match fuel with
  | 0 => ""
  | S fuel' =>
      let d := String (Ascii.ascii_of_nat (48 + n `mod` 10)) "" in
      if n <? 10 then d else digits fuel' (n `div` 10) +:+ d
  end.

Definition util : Util := {|
  load_json text :=
    if String.eqb text "" then inl (DCOSException "Error loading JSON")
    else inr (descriptor text);
  validate_json doc schema :=
    match doc with
    | PDict d =>
        match d !! "name" with
        | Some (PStr "invalid") => ["'name' does not match the schema"]
        | _ => []
        end
    | _ => ["not an object"]
    end;
  list_to_err := str_join nl;
  is_png := String.prefix "PNG";
  py_str _ := "?";
  zip_bytes members := String.concat "" (member_bytes <$> members);
  sha256_state := nat;
  sha256_new := 0;
  sha256_update h chunk := h + String.length chunk;
  sha256_hexdigest h := digits (S h) h;
|}.

(** Package directories. *)
Definition minimal : node :=
  Dir [("package.json", File "demo")].

Definition with_foo_txt : node :=
  Dir [("package.json", File "demo"); ("foo.txt", File "hello");
       ("config.json", File "cfg"); ("command.json", File "cmd")].

Definition only_foo_txt : node :=
  Dir [("foo.txt", File "hello")].

Definition invalid_config : node :=
  Dir [("package.json", File "demo"); ("config.json", File "invalid");
       ("foo.txt", File "hello")].

Definition two_extras : node :=
  Dir [("package.json", File "demo"); ("b.txt", File "b"); ("a.txt", File "a")].

Definition with_extra_asset : node :=
  Dir [("package.json", File "demo");
       ("assets", Dir [("uris", Dir [("a.jar", File "A")]);
                       ("notes.txt", File "see uris")])].

Definition full : node :=
  Dir [("package.json", File "demo");
       ("marathon.json.mustache", File ("{}" +:+ nl));
       ("images", Dir [("screenshots", Dir [("s2.png", File "PNG2");
                                             ("s1.png", File "PNG1")]);
                       ("icon-small.png", File "PNGs")]);
       ("assets", Dir [("uris", Dir [("b.jar", File "B"); ("a.jar", File "A")])]);
       ("config.json", File "cfg")].

(** [full], listed in another order at every level. *)
Definition full_shuffled : node :=
  Dir [("config.json", File "cfg");
       ("assets", Dir [("uris", Dir [("a.jar", File "A"); ("b.jar", File "B")])]);
       ("images", Dir [("icon-small.png", File "PNGs");
                       ("screenshots", Dir [("s1.png", File "PNG1");
                                             ("s2.png", File "PNG2")])]);
       ("marathon.json.mustache", File ("{}" +:+ nl));
       ("package.json", File "demo")].

(** Packages and a cluster that accepts every request. *)
Definition revision (id version : string) (notes : gmap string pyval)
    (command marathon : option string) : Revision := {|
  rev_id := id;
  rev_version := version;
  rev_package_json :=
    <["name" := PStr "demo"]> (<["version" := PStr version]> notes);
  rev_config_json := None;
  rev_command_template := command;
  rev_marathon_template := marathon;
|}.

(** Declares a command template only. *)
Definition cli_only_latest : Revision :=
  revision "1" "1.0" {["postInstallNotes" := PStr "Try: dcos demo"]}
    (Some ("{cmd}" +:+ nl)) None.

Definition cli_only : Package.t := {|
  Package.name := "cli-only";
  revisions := [cli_only_latest; revision "0" "0.9" ∅ (Some "{old}") None];
|}.

(** Declares neither template, and has post-install notes. *)
Definition notes_only_latest : Revision :=
  revision "0" "1.0" {["postInstallNotes" := PStr "All set."]} None None.

Definition notes_only : Package.t := {|
  Package.name := "notes-only";
  revisions := [notes_only_latest];
|}.

(** Declares both templates, and asks before installing. *)
Definition guarded_latest : Revision :=
  revision "0" "2.0" {["preInstallNotes" := PStr "Beta software."]}
    (Some "{cmd}") (Some ("{app}" +:+ nl +:+ nl)).

Definition guarded : Package.t := {|
  Package.name := "guarded";
  revisions := [guarded_latest];
|}.

(** Installed packages as [package list] sees them; the second one is a
    subcommand without an app. *)
Definition installed : list (gmap string pyval) :=
  [ <["name" := PStr "chronos"]> {["apps" := PList [PStr "/chronos"]]};
    {["name" := PStr "helloworld"]} ].

Definition cluster : Cluster := {|
  resolve_package name :=
    if String.eqb name "cli-only" then Some cli_only
    else if String.eqb name "notes-only" then Some notes_only
    else if String.eqb name "guarded" then Some guarded
    else None;
  read_json_file path := inl (IOError path);
  package_options _ user_options := inr user_options;
  render_template template _ := inr (PStr template);
  install_app _ _ _ _ := None;
  subcommand_install _ _ _ := None;
  get_package_commands name := ["/home/.dcos/subcommands/dcos-" +:+ name];
  read_error pkg_revision filename :=
    DCOSException ("Path [" +:+ rev_id pkg_revision +:+ "/" +:+ filename
                     +:+ "] is not a file");
|}.

(** A cluster whose scheduler refuses every app. *)
Definition refusing : Cluster := {|
  resolve_package := resolve_package cluster;
  read_json_file := read_json_file cluster;
  package_options := package_options cluster;
  render_template := render_template cluster;
  install_app _ _ _ _ := Some (DCOSException "App refused");
  subcommand_install := subcommand_install cluster;
  get_package_commands := get_package_commands cluster;
  read_error := read_error cluster;
|}.

(** Two running packages, both with apps. *)
Definition running : list (gmap string pyval) :=
  [ <["name" := PStr "chronos"]>
      {["apps" := PList [PStr "/chronos"; PStr "/chronos-2"]]};
    <["name" := PStr "spark"]> {["apps" := PList [PStr "/spark"]]} ].

(** An index of two sources; only a query for [spark] finds packages. *)
Definition index (query : string) : exn + list (gmap string pyval) :=
  inr [ {["source" := PStr "universe";
          "packages" := PList (if String.eqb query "spark"
                               then [PStr "spark"] else [])]};
        {["source" := PStr "local"; "packages" := PList []]} ].

(** A host of the launcher: the user is not logged in, and [help] and
    [package] are the installed commands. *)
Definition host : Launcher.Host := {|
  Launcher.VALID_LOG_LEVEL_VALUES :=
    ["debug"; "info"; "warning"; "error"; "critical"];
  Launcher.DCOS_LOG_LEVEL_ENV := "DCOS_LOG_LEVEL";
  Launcher.DCOS_DEBUG_ENV := "DCOS_DEBUG";
  Launcher.DCOS_SSL_VERIFY_ENV := "DCOS_SSL_VERIFY";
  Launcher.repr_str s := "'" +:+ s +:+ "'";
  Launcher.repr_levels l := "[" +:+ str_join ", " l +:+ "]";
  Launcher.str_value v := match v with PStr s => s | PBool true => "True"
                                     | PBool false => "False" | _ => "?" end;
  Launcher.check_if_user_authenticated := false;
  Launcher.get_config := {["core.ssl_verify" := PBool false]};
  Launcher.command_executables command :=
    if String.eqb command "help" || String.eqb command "package"
    then inr ("/usr/bin/dcos-" +:+ command)
    else inl (DCOSException ("'" +:+ command +:+ "' is not a dcos command."));
  Launcher.wait _ _ := 0%Z;
|}.

End Demo.

(** * Vocabulary of the properties *)

Definition returns {A} (m : M A) : Prop := ∃ a, result m = Return a.
Definition raises {A} (m : M A) (e : exn) : Prop := result m = Raise e.
Definition no_hang {A} (m : M A) : Prop := result m ≠ Hang.

(** Two trees hold the same package directory when they differ at most in the
    order in which each directory lists its names. *)
Inductive same_listing : node → node → Prop :=
| same_file data : same_listing (File data) (File data)
| same_dir entries entries' :
    listdir entries ≡ₚ listdir entries' →
    (∀ name x, entry entries name = Some x →
       ∃ y, entry entries' name = Some y ∧ same_listing x y) →
    same_listing (Dir entries) (Dir entries').

(** The allow-list of the archive manifest, on paths relative to the package
    directory. *)
Definition allow_listed (path : list string) : bool :=
  match path with
  | [f] =>
      bool_decide (f ∈ ["package.json"; "config.json"; "command.json";
                        "marathon.json.mustache"])
  | [d; f] =>
      String.eqb d "images"
      && bool_decide (f ∈ ["icon-small.png"; "icon-medium.png";
                           "icon-large.png"])
  | [d; s; _] =>
      (String.eqb d "assets" && String.eqb s "uris")
      || (String.eqb d "images" && String.eqb s "screenshots")
  | _ => false
  end.

(** The directories that lead to allow-listed entries. *)
Definition leads_to_allowed (path : list string) : bool :=
  bool_decide (path ∈ [["assets"]; ["assets"; "uris"];
                       ["images"]; ["images"; "screenshots"]]).

(** An entry matches the manifest when its path is allow-listed or when it is
    a directory on the way to allow-listed entries. *)
Definition matches_manifest (path : list string) (x : node) : bool :=
  allow_listed path || (isdir (Some x) && leads_to_allowed path).

(** The levels of the package directory at which entries are checked by
    name: the directory itself, [assets/] and [images/]. *)
Inductive level := Top | InAssets | InImages.

Definition level_name (l : level) : option string :=
  match l with
  | Top => None
  | InAssets => Some "assets"
  | InImages => Some "images"
  end.

Definition level_entries (entries : list (string * node)) (l : level)
  : option (list (string * node)) :=
  match level_name l with
  | None => Some entries
  | Some d =>
      match entry entries d with
      | Some (Dir inner) => Some inner
      | _ => None
      end
  end.

Definition level_path (l : level) (name : string) : list string :=
  match level_name l with
  | None => [name]
  | Some d => [d; name]
  end.

Definition level_directory (package_directory : string) (l : level) : string :=
  match level_name l with
  | None => package_directory
  | Some d => path_join package_directory d
  end.

Definition level_body (U : Util) (package_directory : string) (l : level)
  : string → option node → M unit :=
  match l with
  | Top => bundle_entry U package_directory
  | InAssets => assets_entry (path_join package_directory "assets")
  | InImages => images_entry U (path_join package_directory "images")
  end.

(** Every entry that sorts before [name] is processed without an exception. *)
Definition runs_before (entries : list (string * node))
    (body : string → option node → M unit) (name : string) : Prop :=
  ∀ m, m ∈ listdir entries → String.le m name → m ≠ name →
       returns (body m (entry entries m)).

(** The walk gets as far as the entry [name] of level [l]: package.json is
    valid and nothing that comes earlier in sorted order fails. *)
Definition walk_reaches (U : Util) (package_directory : string)
    (entries : list (string * node)) (l : level) (name : string) : Prop :=
  returns (_validate_json_file U (path_join package_directory "package.json")
             (entry entries "package.json")) ∧
  (∀ d, level_name l = Some d →
        runs_before entries (bundle_entry U package_directory) d) ∧
  (∀ inner, level_entries entries l = Some inner →
        runs_before inner (level_body U package_directory l) name).

(** Whether a message contains the path. *)
Definition mentions (msg path : string) : bool :=
  bool_decide (is_Some (String.index 0 path msg)).

Definition message (e : exn) : string :=
  match e with
  | DCOSException msg | TypeError msg | KeyError msg | IOError msg => msg
  end.

(** The events that change a target: the scheduler or the subcommand store. *)
Definition is_app_install (e : event) : bool :=
  match e with InstallApp _ _ _ => true | _ => false end.
Definition is_subcommand_install (e : event) : bool :=
  match e with InstallSubcommand _ _ => true | _ => false end.
Definition is_mutation (e : event) : bool :=
  is_app_install e || is_subcommand_install e.

(** No event of the trace is of the given kind. *)
Definition free (kind : event → bool) (t : list event) : Prop :=
  ∀ e, e ∈ t → kind e = false.

(** The targets of an install request: both when neither flag is given. *)
Definition wants_app (cli app : bool) : bool :=
  if negb cli && negb app then true else app.
Definition wants_cli (cli app : bool) : bool :=
  if negb cli && negb app then true else cli.

(** The error of a membership test in [None]. *)
Definition type_error_none : exn :=
  TypeError "argument of type 'NoneType' is not iterable".

(** ** Vocabulary of the further properties *)

(** Every event of the trace satisfies [P]. *)
Definition all_events (P : event → Prop) (t : list event) : Prop :=
  ∀ e, e ∈ t → P e.

(** A name without a slash, as [os.listdir] returns them. *)
Fixpoint slashless (s : string) : bool :=
  match s with
  | "" => true
  | String c s' => negb (Ascii.eqb c "/"%char) && slashless s'
  end.

Definition json_names : list string :=
  ["config.json"; "command.json"; "package.json"].

Definition icon_names : list string :=
  ["icon-small.png"; "icon-medium.png"; "icon-large.png"].

(** The file's text loads as JSON and has no violation of the schema that
    belongs to its name. *)
Definition valid_json (U : Util) (name data : string) : Prop :=
  ∃ doc, load_json U data = inr doc ∧
         validate_json U doc ("data/universe-schema/" +:+ name) = [].

(** What the bundler may put in the archive, and on what condition. *)
Definition member_ok (U : Util) (e : event) : Prop :=
  match e with
  | ZipWrite arcname data =>
      (arcname ∈ json_names ∧ valid_json U arcname data)
      ∨ arcname = "marathon.json.mustache"
      ∨ (arcname = "marathon.json.mustache/" ∧ data = "")
      ∨ (∃ f, arcname = "assets/uris/" +:+ f)
      ∨ (∃ f, f ∈ icon_names ∧ arcname = "images/" +:+ f
              ∧ is_png U data = true)
      ∨ (∃ f, arcname = "images/screenshots/" +:+ f ∧ is_png U data = true)
  | _ => True
  end.

(** A name without a hyphen. *)
Fixpoint hyphenless (s : string) : bool :=
  match s with
  | "" => true
  | String c s' => negb (Ascii.eqb c "-"%char) && hyphenless s'
  end.

(** The path of the executable of a subcommand, and how it is shown. *)
Definition executable_path (dir : string) (command : string * string) : string :=
  dir +:+ "/" +:+ command.1 +:+ "-" +:+ command.2.
Definition shown_command (command : string * string) : string :=
  command.1 +:+ " " +:+ command.2.

(** [read_chunks] for any block size. *)
Section Chunks.
Context (n : nat).
Fixpoint chunks_of (fuel : nat) (data : string) : list string :=
  match fuel with
  | 0 => []
  | S fuel' =>
      match String.substring 0 n data with
      | "" => []
      | chunk =>
          chunk :: chunks_of fuel'
                     (String.substring n (String.length data - n) data)
      end
  end.
End Chunks.

(** In the trace the calls to the scheduler come before the installations of
    subcommands. *)
Definition scheduler_first (t : list event) : Prop :=
  ∃ a b, t = a ++ b ∧ free is_subcommand_install a ∧ free is_app_install b.

Definition is_prompt (e : event) : bool :=
  match e with StdoutWrite _ => true | _ => false end.

(** How [_confirm] reads one line: yes, no, or not an answer. *)
Definition answer (line : string) : option bool :=
  let response := lower (strip line) in
  if String.eqb response "yes" || String.eqb response "y" then Some true
  else if String.eqb response "no" || String.eqb response "n" then Some false
  else None.

(** What [_confirm] writes for a line that is not an answer. *)
Definition asked_again (prompt line : string) : list event :=
  [StdoutWrite (prompt +:+ " [yes/no] ");
   Publish (PStr ("'" +:+ lower (strip line) +:+ "' is not a valid response."))].

(** The index entry of a source lists packages. *)
Definition has_packages (r : gmap string pyval) : bool :=
  truthy (dict_get r "packages").

(** The filters of [package list], on a record. *)
Definition name_matches (package_name : option string)
    (r : gmap string pyval) : bool :=
  match package_name with
  | None => true
  | Some name =>
      match r !! "name" with
      | Some (PStr s) => String.eqb s name
      | _ => false
      end
  end.

Definition apps_of (r : gmap string pyval) : list pyval :=
  match r !! "apps" with
  | Some (PList l) => l
  | _ => []
  end.

Definition runs_app (app_id : string) (r : gmap string pyval) : bool :=
  existsb (is_str app_id) (apps_of r).

Definition only_that_app (app_id : string) (r : gmap string pyval) : pyval :=
  PDict (<["apps" := PList (List.filter (is_str app_id) (apps_of r))]> r).


(** [s.startswith(p)] *)
Fixpoint has_prefix (p s : string) : bool :=
  match p, s with
  | "", _ => true
  | String a p', String b s' => Ascii.eqb a b && has_prefix p' s'
  | String _ _, "" => false
  end.

(** The names under which the bundler stores members: the manifest. *)
Definition manifest_member (arcname : string) : bool :=
  bool_decide (arcname ∈ ["package.json"; "config.json"; "command.json";
                          "marathon.json.mustache"; "marathon.json.mustache/"])
  || has_prefix "assets/uris/" arcname
  || bool_decide (arcname ∈ ["images/icon-small.png"; "images/icon-medium.png";
                             "images/icon-large.png"])
  || has_prefix "images/screenshots/" arcname.

(** * Properties *)

(** ** The trace monad *)

Lemma bind_ret_l {A B} (a : A) (k : A → M B) : bind (ret a) k = k a.
Proof. unfold bind, ret. by destruct (k a) as [t o]. Qed.

Lemma bind_raise {A B} (m : M A) (k : A → M B) e :
  result m = Raise e → bind m k = (trace m, Raise e).
Proof. destruct m as [t o]; simpl; by intros ->. Qed.

Lemma bind_return {A B} (m : M A) (k : A → M B) a :
  result m = Return a →
  bind m k = (trace m ++ trace (k a), result (k a)).
Proof. destruct m as [t o]; simpl; intros ->. by destruct (k a). Qed.

Lemma result_bind_raise {A B} (m : M A) (k : A → M B) e :
  result m = Raise e → result (bind m k) = Raise e.
Proof. intros H. by rewrite (bind_raise _ _ _ H). Qed.

Lemma no_hang_bind {A B} (m : M A) (k : A → M B) :
  no_hang m → (∀ a, no_hang (k a)) → no_hang (bind m k).
Proof.
  unfold no_hang. destruct m as [t [a|e|]]; simpl; intros Hm Hk; try done.
  specialize (Hk a). by destruct (k a).
Qed.

Lemma no_hang_for_each {A} (l : list A) (body : A → M unit) :
  (∀ x, x ∈ l → no_hang (body x)) → no_hang (for_each l body).
Proof.
  induction l as [|x l IH]; intros Hbody; simpl; [done|].
  apply no_hang_bind.
  - apply Hbody. by left.
  - intros _. apply IH. intros y Hy. apply Hbody. by right.
Qed.

Lemma for_each_app {A} (l1 l2 : list A) (body : A → M unit) :
  for_each (l1 ++ l2) body = bind (for_each l1 body) (λ _, for_each l2 body).
Proof.
  induction l1 as [|x l1 IH]; simpl.
  - by destruct (for_each l2 body).
  - rewrite IH. destruct (body x) as [t [[]|e|]]; simpl; try done.
    destruct (for_each l1 body) as [t1 [[]|e1|]]; simpl; try done.
    + destruct (for_each l2 body) as [t2 o2]. by rewrite app_assoc.
Qed.

Lemma for_each_ext {A} (l : list A) (f g : A → M unit) :
  (∀ x, x ∈ l → f x = g x) → for_each l f = for_each l g.
Proof.
  induction l as [|x l IH]; intros Hfg; simpl; [done|].
  rewrite (Hfg x) by (by left).
  rewrite IH; [done|]. intros y Hy. apply Hfg. by right.
Qed.

(** A loop whose every turn returns, returns; its trace holds the trace of
    each turn. *)
Lemma for_each_returns_inv {A} (l : list A) (body : A → M unit) x :
  returns (for_each l body) → x ∈ l →
  returns (body x) ∧ trace (body x) ⊆ trace (for_each l body).
Proof.
  induction l as [|y l IH]; intros Hret Hx; [by apply elem_of_nil in Hx|].
  simpl in Hret |- *. destruct (body y) as [t [[]|e|]] eqn:Hy;
    try (by destruct Hret as [? [=]]).
  simpl in *. destruct (for_each l body) as [t' o'] eqn:Hl. simpl in *.
  apply elem_of_cons in Hx as [->|Hx].
  - rewrite Hy. split; [by eexists|]. simpl.
    intros ev Hev. apply elem_of_app. by left.
  - destruct (IH Hret Hx) as [Hr Ht]. split; [done|].
    intros ev Hev. apply elem_of_app. right. by apply Ht.
Qed.

(** ** Archive builder: what a run does to the file system *)

Section BundleFacts.
Context (U : Util).

Lemma subscript_pure v k : ∃ o, subscript v k = ([], o) ∧ o ≠ Hang.
Proof.
  destruct v; simpl; try (by eexists).
  destruct (d !! k); by eexists.
Qed.

(** The whole of [_bundle], step by step: the only file that a run leaves
    behind is the finished archive under its final name. *)
Lemma bundle_run dir out cwd tmp src (fs : gmap string string) :
  _bundle U dir out cwd tmp src fs =
  let entries := children src in
  if negb (exists_ (entry entries "package.json"))
  then (fs, raise (missing_package_json_error dir))
  else
    match _validate_json_file U (path_join dir "package.json")
            (entry entries "package.json") with
    | (t0, Return package_json) =>
        let '(tw, ow) := bundle_walk U dir entries in
        let archive := zip_bytes U (zip_members tw) in
        match ow with
        | Return _ =>
            match subscript package_json "name",
                  subscript package_json "version" with
            | (_, Return name), (_, Return version) =>
                let zip_file_name :=
                  zip_file_name_of U (default cwd out) name version
                    (PStr (hash_data U archive)) in
                if bool_decide
                     (is_Some (<[tmp := archive]> fs !! zip_file_name))
                then (delete tmp fs,
                      (t0 ++ tw, Raise (conflict_error zip_file_name)))
                else (delete tmp (<[zip_file_name := archive]> fs),
                      (t0 ++ tw ++ [created_message zip_file_name],
                       Return 0%Z))
            | (_, Return _), (_, Raise e) => (delete tmp fs, (t0 ++ tw, Raise e))
            | (_, Raise e), _ => (delete tmp fs, (t0 ++ tw, Raise e))
            | _, _ => (delete tmp fs, (t0 ++ tw, Hang))
            end
        | Raise e => (delete tmp fs, (t0 ++ tw, Raise e))
        | Hang => (delete tmp fs, (t0 ++ tw, Hang))
        end
    | (t0, Raise e) => (fs, (t0, Raise e))
    | (t0, Hang) => (fs, (t0, Hang))
    end.
Proof.
  unfold _bundle. cbv zeta.
  destruct (negb _); [done|].
  unfold fs_bind at 1. unfold lift at 1.
  destruct (_validate_json_file _ _ _) as [t0 [pj| |]]; [|done..].
  unfold with_named_temporary_file, with_exit, with_zip_file, _hashfile,
    sh_copy, fs_bind, fs_write, fs_unlink, fs_exists, fs_read, lift.
  destruct (bundle_walk _ _ _) as [tw [[]| |]].
  2,3: cbn; by rewrite ?app_nil_r, ?insert_insert_eq, ?delete_insert_eq.
  destruct (subscript_pure pj "name") as (o1 & -> & Ho1).
  destruct (subscript_pure pj "version") as (o2 & -> & Ho2).
  destruct o1 as [name| |];
    [|cbn; by rewrite ?app_nil_r, ?insert_insert_eq, ?delete_insert_eq..].
  destruct o2 as [version| |];
    [|cbn; by rewrite ?app_nil_r, ?insert_insert_eq, ?delete_insert_eq..].
  cbn -[hash_data]. rewrite !insert_insert_eq, !lookup_insert_eq.
  cbn -[hash_data].
  case_bool_decide as Htaken; cbn -[hash_data].
  - by rewrite !app_nil_r, delete_insert_eq.
  - rewrite lookup_insert_eq. cbn -[hash_data]. rewrite !app_nil_r.
    f_equal.
    rewrite delete_insert_ne, delete_insert_eq, <-delete_insert_ne; [done|..];
      intros Heq; apply Htaken; rewrite <-?Heq, ?Heq, lookup_insert_eq; eauto.
Qed.

End BundleFacts.

Section BundleFileSystem.
Context (U : Util).

Lemma validate_json_file_members fullpath target :
  zip_members (trace (_validate_json_file U fullpath target)) = [].
Proof.
  unfold _validate_json_file.
  case_bool_decide; [|done].
  rewrite bind_ret_l.
  destruct target as [[data|es]|]; try done. simpl.
  destruct (load_json U data) as [e|doc]; [done|]. simpl.
  by destruct (validate_json U doc _).
Qed.

Lemma validate_json_file_no_hang fullpath target :
  no_hang (_validate_json_file U fullpath target).
Proof.
  unfold _validate_json_file, no_hang.
  case_bool_decide; [|done].
  rewrite bind_ret_l.
  destruct target as [[data|es]|]; try done. simpl.
  destruct (load_json U data) as [e|doc]; [done|]. simpl.
  by destruct (validate_json U doc _).
Qed.

(** C2.  Whatever makes bundling fail (no package.json, a schema violation, a
    disallowed entry, an invalid image, a name that is taken), the file system
    is left as it was found: nothing is created at the output path or anywhere
    else.  The archive is built in the temporary file and reaches the output
    directory only when the walk of the whole directory has succeeded, and
    then it is the one file that the run adds. *)
Theorem bundle_failure_leaves_no_file dir out cwd tmp src
    (fs fs' : gmap string string) t o :
  fs !! tmp = None →
  _bundle U dir out cwd tmp src fs = (fs', (t, o)) →
  match o with
  | Return _ =>
      ∃ zip_file_name,
        zip_file_name ≠ tmp ∧ fs !! zip_file_name = None ∧
        fs' = <[zip_file_name := zip_bytes U (zip_members t)]> fs ∧
        returns (bundle_walk U dir (children src))
  | _ => fs' = fs
  end.
Proof.
  intros Htmp. rewrite bundle_run. cbv zeta.
  destruct (negb _); [by intros [= <- <- <-]|].
  pose proof (validate_json_file_members (path_join dir "package.json")
                (entry (children src) "package.json")) as Hm.
  destruct (_validate_json_file _ _ _) as [t0 [pj|e0|]];
    [|by intros [= <- <- <-]..].
  destruct (bundle_walk _ _ _) as [tw [[]|ew|]] eqn:Hw;
    [|intros [= <- <- <-]; by apply delete_id..].
  destruct (subscript pj "name") as [? [name|e1|]];
    destruct (subscript pj "version") as [? [version|e2|]];
    try (intros [= <- <- <-]; by apply delete_id).
  case_bool_decide as Htaken; intros [= <- <- <-]; [by apply delete_id|].
  set (zn := zip_file_name_of _ _ _ _ _) in *.
  assert (zn ≠ tmp) as Hne.
  { intros ->. apply Htaken. rewrite lookup_insert_eq. eauto. }
  assert (fs !! zn = None) as Hfree.
  { apply eq_None_not_Some. intros Hs. apply Htaken.
    by rewrite lookup_insert_ne. }
  exists zn. split_and!; [done|done| |by eexists].
  unfold zip_members in *. rewrite !omap_app. simpl in Hm. rewrite Hm.
  simpl. rewrite app_nil_r.
  rewrite delete_insert_ne by done. by rewrite delete_id.
Qed.

End BundleFileSystem.

(** The specification's example: package.json, config.json, command.json and
    one unrecognised foo.txt.  Bundling fails and the output directory keeps
    the one file it had. *)
Lemma bundle_failure_leaves_no_file_witness :
  let fs : gmap string string := {["out/old.zip" := "old"]} in
  fs !! "/tmp/tmpk3" = None ∧
  (_bundle Demo.util "pkg" (Some "out") "/cwd" "/tmp/tmpk3"
     (Some Demo.with_foo_txt) fs).1 = fs.
Proof.
  split; [reflexivity|].
  apply (bundle_failure_leaves_no_file Demo.util "pkg" (Some "out") "/cwd"
           "/tmp/tmpk3" (Some Demo.with_foo_txt) {["out/old.zip" := "old"]}
           _ [ZipWrite "command.json" "cmd"; ZipWrite "config.json" "cfg"]
           (Raise (extra_file_error "pkg/foo.txt")));
    [reflexivity | vm_compute; reflexivity].
Defined.

(** ** Archive builder: the order of a listing does not matter *)

Lemma entry_is_Some entries name :
  name ∈ listdir entries → is_Some (entry entries name).
Proof.
  induction entries as [|[n x] es IH]; simpl; intros Hin.
  - by apply elem_of_nil in Hin.
  - destruct (String.eqb_spec n name) as [->|Hne]; [by eexists|].
    apply IH. apply elem_of_cons in Hin as [?|?]; [congruence|done].
Qed.

Lemma entry_listed entries name x :
  entry entries name = Some x → name ∈ listdir entries.
Proof.
  induction entries as [|[n y] es IH]; simpl; [done|].
  destruct (String.eqb_spec n name) as [->|Hne]; intros H.
  - by left.
  - right. by apply IH.
Qed.

Lemma sorted_Permutation (l l' : list string) :
  l ≡ₚ l' → sorted l = sorted l'.
Proof.
  intros Hp. unfold sorted.
  apply (Sorted_unique String.le).
  - apply Sorted_merge_sort; apply _.
  - apply Sorted_merge_sort; apply _.
  - by rewrite !merge_sort_Permutation.
Qed.

Lemma elem_of_sorted (l : list string) x : x ∈ sorted l ↔ x ∈ l.
Proof. unfold sorted. by rewrite merge_sort_Permutation. Qed.

Lemma walk_same_listing entries entries' (body body' : string → option node → M unit) :
  same_listing (Dir entries) (Dir entries') →
  (∀ name x y, same_listing x y → body name (Some x) = body' name (Some y)) →
  walk entries body = walk entries' body'.
Proof.
  intros Hs Hbody. inv Hs. unfold walk.
  match goal with H : listdir _ ≡ₚ _ |- _ => rewrite <-(sorted_Permutation _ _ H) end.
  apply for_each_ext. intros name Hin.
  apply elem_of_sorted, entry_is_Some in Hin as [x Hx].
  match goal with H : ∀ _ _, _ → _ |- _ => destruct (H _ _ Hx) as (y & Hy & Hxy) end.
  rewrite Hx, Hy. by apply Hbody.
Qed.

Lemma walk_children_same x y (body body' : string → option node → M unit) :
  same_listing x y →
  (∀ name a b, same_listing a b → body name (Some a) = body' name (Some b)) →
  walk (children (Some x)) body = walk (children (Some y)) body'.
Proof.
  intros Hs Hbody. destruct Hs as [data|es es' Hp He]; [done|].
  simpl. apply walk_same_listing; [by constructor|done].
Qed.

Lemma isdir_same x y : same_listing x y → isdir (Some x) = isdir (Some y).
Proof. by intros []. Qed.

Section ListingOrder.
Context (U : Util).

Lemma zip_write_same p x y arc :
  same_listing x y → zip_write p (Some x) arc = zip_write p (Some y) arc.
Proof. by intros []. Qed.

Lemma open_file_same p x y :
  same_listing x y → open_file p (Some x) = open_file p (Some y).
Proof. by intros []. Qed.

Lemma bundle_entry_same dir name x y :
  same_listing x y →
  bundle_entry U dir name (Some x) = bundle_entry U dir name (Some y).
Proof.
  intros Hs. unfold bundle_entry.
  rewrite (isdir_same _ _ Hs), (zip_write_same _ _ _ _ Hs).
  unfold _validate_json_file. rewrite (open_file_same _ _ _ Hs).
  repeat case_match; try done.
  - unfold _bundle_assets. apply walk_children_same; [done|].
    intros n a b Hab. unfold assets_entry.
    rewrite (isdir_same _ _ Hab). case_match; [|done].
    unfold _bundle_uris. apply walk_children_same; [done|].
    intros n' a' b' Hab'. unfold uris_entry. by apply zip_write_same.
  - unfold _bundle_images. apply walk_children_same; [done|].
    intros n a b Hab. unfold images_entry, validate_png.
    rewrite (isdir_same _ _ Hab), (zip_write_same _ _ _ _ Hab), (open_file_same _ _ _ Hab).
    repeat case_match; try done.
    unfold _bundle_screenshots. apply walk_children_same; [done|].
    intros n' a' b' Hab'. unfold screenshots_entry, validate_png.
    by rewrite (zip_write_same _ _ _ _ Hab'), (open_file_same _ _ _ Hab').
Qed.
End ListingOrder.

Lemma node_ind' (P : node → Prop) :
  (∀ data, P (File data)) →
  (∀ entries, Forall (λ p, P p.2) entries → P (Dir entries)) →
  ∀ x, P x.
Proof.
  intros Hfile Hdir. fix IH 1. intros [data|entries]; [apply Hfile|].
  apply Hdir. induction entries as [|[n y] es IHes]; constructor.
  - apply IH.
  - apply IHes.
Qed.

Lemma entry_elem_of entries name x :
  entry entries name = Some x → (name, x) ∈ entries.
Proof.
  induction entries as [|[n y] es IH]; simpl; [done|].
  destruct (String.eqb_spec n name) as [->|Hne].
  - intros [= ->]. by left.
  - intros H. right. by apply IH.
Qed.

Lemma same_listing_refl x : same_listing x x.
Proof.
  induction x as [data|entries IH] using node_ind'; constructor; [done|].
  intros name x Hx. exists x. split; [done|].
  rewrite Forall_forall in IH. by apply (IH _ (entry_elem_of _ _ _ Hx)).
Qed.

Lemma same_dir_intro entries entries' :
  sorted (listdir entries) = sorted (listdir entries') →
  Forall (λ p, ∃ y, entry entries' p.1 = Some y ∧ same_listing p.2 y) entries →
  same_listing (Dir entries) (Dir entries').
Proof.
  intros Hs Hall. constructor.
  - unfold sorted in Hs.
    by rewrite <-(merge_sort_Permutation String.le (listdir entries)), Hs,
      merge_sort_Permutation.
  - intros name x Hx. rewrite Forall_forall in Hall.
    apply (Hall _ (entry_elem_of _ _ _ Hx)).
Qed.

Ltac solve_same_listing :=
  cbn [fst snd];
  lazymatch goal with
  | |- same_listing (File _) (File _) => constructor
  | |- same_listing (Dir _) (Dir _) =>
      apply same_dir_intro;
      [vm_compute; reflexivity
      |repeat (apply Forall_cons; split;
               [eexists; split; [reflexivity|solve_same_listing]|]);
       apply Forall_nil_2]
  end.

Section BundleTwice.
Context (U : Util).

(** C3.  Bundling is deterministic.  A second run over the same package
    directory, also when the system lists its directories in another order,
    puts the same members in the archive in the same order (every level is
    walked in sorted order), so the archive has the same bytes, the same digest
    and the same file name; that name is now taken, and the second run fails
    with the conflict error and writes nothing. *)
Theorem bundle_twice_conflicts dir out cwd tmp tmp' x y
    (fs fs1 : gmap string string) t z :
  same_listing x y →
  fs !! tmp = None →
  _bundle U dir out cwd tmp (Some x) fs = (fs1, (t, Return z)) →
  fs1 !! tmp' = None →
  ∃ zip_file_name t',
    fs1 = <[zip_file_name := zip_bytes U (zip_members t)]> fs ∧
    created_message zip_file_name ∈ t ∧
    _bundle U dir out cwd tmp' (Some y) fs1
      = (fs1, (t', Raise (conflict_error zip_file_name))) ∧
    zip_members t' = zip_members t.
Proof.
  intros Hxy Htmp Hrun Htmp'.
  rewrite bundle_run in Hrun. rewrite bundle_run. cbv zeta in *.
  destruct (entry (children (Some x)) "package.json") as [a|] eqn:Ha;
    [|by inv Hrun].
  assert (∃ b, entry (children (Some y)) "package.json" = Some b
               ∧ same_listing a b) as (b & Hb & Hab).
  { destruct Hxy as [data|es es' Hp He]; [done|]. by apply He. }
  rewrite Hb. simpl negb in *. cbv iota in *.
  assert (_validate_json_file U (path_join dir "package.json") (Some b)
          = _validate_json_file U (path_join dir "package.json") (Some a)) as ->.
  { unfold _validate_json_file. by rewrite (open_file_same _ _ _ Hab). }
  assert (bundle_walk U dir (children (Some y))
          = bundle_walk U dir (children (Some x))) as ->.
  { symmetry. apply walk_children_same; [done|].
    intros; by apply bundle_entry_same. }
  pose proof (validate_json_file_members U (path_join dir "package.json")
                (Some a)) as Hm.
  destruct (_validate_json_file _ _ _) as [t0 [pj|e0|]]; [|by inv Hrun..].
  destruct (bundle_walk _ _ _) as [tw [[]|ew|]]; [|by inv Hrun..].
  destruct (subscript pj "name") as [? [name|e1|]];
    destruct (subscript pj "version") as [? [version|e2|]];
    try (by inv Hrun).
  set (zn := zip_file_name_of _ _ _ _ _) in *.
  case_bool_decide as Htaken; [by inv Hrun|].
  injection Hrun as <- <- <-.
  assert (zn ≠ tmp) as Hne.
  { intros ->. apply Htaken. rewrite lookup_insert_eq. eauto. }
  assert (zip_members (t0 ++ tw ++ [created_message zn]) = zip_members tw) as Hmem.
  { unfold zip_members in *. rewrite !omap_app. simpl in Hm. rewrite Hm.
    simpl. by rewrite app_nil_r. }
  assert (zip_members (t0 ++ tw) = zip_members tw) as Hmem'.
  { unfold zip_members in *. rewrite !omap_app. simpl in Hm. by rewrite Hm. }
  rewrite delete_insert_ne, delete_id in * by done.
  exists zn, (t0 ++ tw). split_and!.
  - by rewrite Hmem.
  - rewrite !elem_of_app. right. right. by left.
  - rewrite bool_decide_true.
    + by rewrite delete_id.
    + destruct (decide (tmp' = zn)) as [->|Hne'].
      * rewrite lookup_insert_eq. eauto.
      * rewrite lookup_insert_ne, lookup_insert_eq by done. eauto.
  - by rewrite Hmem, Hmem'.
Qed.
End BundleTwice.

Lemma bundle_twice_conflicts_witness :
  let first :=
    _bundle Demo.util "pkg" (Some "out") "/cwd" "/tmp/tmpa" (Some Demo.full) ∅ in
  ∃ zip_file_name t',
    first.1 = <[zip_file_name := zip_bytes Demo.util (zip_members first.2.1)]> ∅ ∧
    created_message zip_file_name ∈ first.2.1 ∧
    _bundle Demo.util "pkg" (Some "out") "/cwd" "/tmp/tmpb"
      (Some Demo.full_shuffled) first.1
      = (first.1, (t', Raise (conflict_error zip_file_name))) ∧
    zip_members t' = zip_members first.2.1.
Proof.
  apply (bundle_twice_conflicts Demo.util "pkg" (Some "out") "/cwd"
           "/tmp/tmpa" "/tmp/tmpb" Demo.full Demo.full_shuffled ∅ _ _ 0%Z).
  - unfold Demo.full, Demo.full_shuffled. solve_same_listing.
  - reflexivity.
  - vm_compute. reflexivity.
  - vm_compute. reflexivity.
Defined.

(** ** Archive builder: entries outside the manifest *)

Lemma for_each_returns {A} (l : list A) (body : A → M unit) :
  (∀ x, x ∈ l → returns (body x)) → returns (for_each l body).
Proof.
  induction l as [|x l IH]; intros Hb; simpl; [by eexists|].
  destruct (Hb x) as [[] Hx]; [by left|].
  destruct IH as [[] Hl]; [intros y Hy; apply Hb; by right|].
  destruct (body x) as [t o]; simpl in *; subst.
  destruct (for_each l body) as [t' o']; simpl in *; subst. by eexists.
Qed.

Lemma walk_first_raise entries (body : string → option node → M unit) name e :
  name ∈ listdir entries →
  raises (body name (entry entries name)) e →
  runs_before entries body name →
  raises (walk entries body) e.
Proof.
  intros Hin Hraise Hbefore. unfold walk.
  assert (name ∈ sorted (listdir entries)) as Hs by by apply elem_of_sorted.
  apply list_elem_of_split_l in Hs as (l1 & l2 & Heq & Hnot).
  assert (StronglySorted String.le (l1 ++ name :: l2)) as Hsorted.
  { rewrite <-Heq. apply StronglySorted_merge_sort; apply _. }
  apply StronglySorted_app in Hsorted as (Hle & _ & _).
  rewrite Heq, for_each_app.
  destruct (for_each_returns l1 (λ f, body f (entry entries f))) as [[] Hl1].
  { intros m Hm. apply Hbefore.
    - apply elem_of_sorted. rewrite Heq. apply elem_of_app. by left.
    - apply Hle; [done|by left].
    - intros ->. done. }
  unfold raises in *. rewrite (bind_return _ _ _ Hl1). simpl.
  by apply result_bind_raise.
Qed.

Lemma walk_not_returns entries (body : string → option node → M unit) name :
  name ∈ listdir entries →
  ¬ returns (body name (entry entries name)) →
  ¬ returns (walk entries body).
Proof.
  intros Hin Hnot Hret. apply Hnot.
  by apply (for_each_returns_inv _ _ name Hret), elem_of_sorted.
Qed.

Section DisallowedEntries.
Context (U : Util).

Lemma zip_write_no_hang p target arc : no_hang (zip_write p target arc).
Proof. by destruct target as [[]|]. Qed.

Lemma validate_png_no_hang p target : no_hang (validate_png U p target).
Proof.
  unfold validate_png, no_hang. destruct target as [[data|]|]; try done.
  simpl. by destruct (is_png U data).
Qed.

Lemma walk_no_hang entries (body : string → option node → M unit) :
  (∀ name target, no_hang (body name target)) → no_hang (walk entries body).
Proof. intros Hb. apply no_hang_for_each. intros; apply Hb. Qed.

Lemma raise_no_hang {A} e : no_hang (raise e : M A).
Proof. done. Qed.

Lemma bundle_walk_no_hang dir entries : no_hang (bundle_walk U dir entries).
Proof.
  apply walk_no_hang. intros name target. unfold bundle_entry.
  repeat case_match; try apply zip_write_no_hang; try apply raise_no_hang.
  - apply no_hang_bind; [apply validate_json_file_no_hang|].
    intros; apply zip_write_no_hang.
  - apply walk_no_hang. intros n t. unfold assets_entry.
    case_match; [|apply raise_no_hang].
    apply walk_no_hang. intros; apply zip_write_no_hang.
  - apply walk_no_hang. intros n t. unfold images_entry.
    repeat case_match; try apply raise_no_hang.
    + apply no_hang_bind; [apply validate_png_no_hang|].
      intros; apply zip_write_no_hang.
    + apply walk_no_hang. intros n' t'. unfold screenshots_entry.
      apply no_hang_bind; [apply validate_png_no_hang|].
      intros; apply zip_write_no_hang.
Qed.

Lemma level_body_extra dir l name x :
  matches_manifest (level_path l name) x = false →
  level_body U dir l name (Some x)
  = raise (extra_file_error (path_join (level_directory dir l) name)).
Proof.
  unfold matches_manifest, leads_to_allowed.
  intros [Hallow Hdir]%orb_false_elim.
  destruct l; simpl in *.
  - unfold bundle_entry.
    apply bool_decide_eq_false in Hallow.
    rewrite !elem_of_cons, elem_of_nil in Hallow.
    destruct (String.eqb_spec name "marathon.json.mustache"); [tauto|].
    rewrite bool_decide_false
      by (rewrite !elem_of_cons, elem_of_nil; tauto).
    destruct (String.eqb_spec name "assets") as [->|?];
      [by destruct x|].
    destruct (String.eqb_spec name "images") as [->|?];
      [by destruct x|].
    done.
  - unfold assets_entry.
    destruct (String.eqb_spec name "uris") as [->|?]; [by destruct x|done].
  - unfold images_entry.
    apply bool_decide_eq_false in Hallow.
    rewrite !elem_of_cons, elem_of_nil in Hallow.
    destruct (String.eqb_spec name "icon-small.png"); [tauto|].
    destruct (String.eqb_spec name "icon-medium.png"); [tauto|].
    destruct (String.eqb_spec name "icon-large.png"); [tauto|].
    destruct (String.eqb_spec name "screenshots") as [->|?];
      [by destruct x|done].
Qed.

(** The loop that walks the level: the whole directory at the top, the loop of
    [_bundle_assets] or of [_bundle_images] below. *)
Lemma top_entry_level dir l d inner :
  level_name l = Some d →
  bundle_entry U dir d (Some (Dir inner))
  = walk inner (level_body U dir l).
Proof. destruct l; intros [= <-]; reflexivity. Qed.

Lemma level_walk_raises dir entries l inner name x :
  level_entries entries l = Some inner →
  entry inner name = Some x →
  matches_manifest (level_path l name) x = false →
  (∀ d, level_name l = Some d → runs_before entries (bundle_entry U dir) d) →
  runs_before inner (level_body U dir l) name →
  raises (bundle_walk U dir entries)
    (extra_file_error (path_join (level_directory dir l) name)).
Proof.
  intros Hlevel Hx Hno Htop Hinner.
  assert (raises (walk inner (level_body U dir l))
            (extra_file_error (path_join (level_directory dir l) name)))
    as Hraise.
  { apply walk_first_raise with name; [by eapply entry_listed| |done].
    rewrite Hx, level_body_extra by done. done. }
  unfold level_entries in Hlevel.
  destruct (level_name l) as [d|] eqn:Hd.
  - destruct (entry entries d) as [[|inner']|] eqn:Hentry; simplify_eq.
    apply walk_first_raise with d; [by eapply entry_listed| |by apply Htop].
    rewrite Hentry. by rewrite (top_entry_level _ l).
  - simplify_eq. by destruct l.
Qed.

Lemma level_walk_not_returns dir entries l inner name x :
  level_entries entries l = Some inner →
  entry inner name = Some x →
  matches_manifest (level_path l name) x = false →
  ¬ returns (bundle_walk U dir entries).
Proof.
  intros Hlevel Hx Hno.
  assert (¬ returns (walk inner (level_body U dir l))) as Hnot.
  { apply walk_not_returns with name; [by eapply entry_listed|].
    rewrite Hx, level_body_extra by done. by intros [? [=]]. }
  unfold level_entries in Hlevel.
  destruct (level_name l) as [d|] eqn:Hd.
  - destruct (entry entries d) as [[|inner']|] eqn:Hentry; simplify_eq.
    apply walk_not_returns with d; [by eapply entry_listed|].
    rewrite Hentry. by rewrite (top_entry_level _ l).
  - simplify_eq. by destruct l.
Qed.

(** C4, as the code has it.  An entry at the top level, in assets/ or in
    images/ that does not match the manifest is never skipped: bundling ends
    with an exception.  The walk stops at the first failure, so the exception
    is the "Extra file" error that names this entry's path when the walk gets
    as far as the entry (package.json is there and valid and no entry that
    sorts earlier fails); otherwise it is the error of that earlier failure. *)
Theorem disallowed_entry_is_fatal dir out cwd tmp entries
    (fs : gmap string string) l inner name x :
  level_entries entries l = Some inner →
  entry inner name = Some x →
  matches_manifest (level_path l name) x = false →
  let run := _bundle U dir out cwd tmp (Some (Dir entries)) fs in
  (∃ e, result run.2 = Raise e) ∧
  (walk_reaches U dir entries l name →
   result run.2
   = Raise (extra_file_error (path_join (level_directory dir l) name))).
Proof.
  intros Hlevel Hx Hno run. subst run. rewrite bundle_run. cbv zeta.
  simpl children.
  pose proof (level_walk_not_returns dir entries l inner name x Hlevel Hx Hno)
    as Hnot.
  pose proof (bundle_walk_no_hang dir entries) as Hnh.
  pose proof (validate_json_file_no_hang U (path_join dir "package.json")
                (entry entries "package.json")) as Hvh.
  split.
  - destruct (negb _); [by eexists|].
    destruct (_validate_json_file _ _ _) as [t0 [pj|e0|]];
      [|by eexists|done].
    destruct (bundle_walk _ _ _) as [tw [[]|ew|]];
      [|by eexists|done].
    destruct Hnot. by eexists.
  - intros (Hvalid & Htop & Hinner).
    pose proof (level_walk_raises dir entries l inner name x Hlevel Hx Hno
                  Htop (Hinner _ Hlevel)) as Hraise.
    destruct (entry entries "package.json") as [pkgjson|] eqn:Hpj.
    + simpl. destruct (_validate_json_file _ _ _) as [t0 [pj|e0|]];
        [|by destruct Hvalid as [? [=]]..].
      unfold raises in Hraise.
      destruct (bundle_walk _ _ _) as [tw ow]. simpl in Hraise. by subst.
    + destruct Hvalid as [? Hv]. unfold _validate_json_file in Hv.
      case_bool_decide; [|done]. by rewrite bind_ret_l in Hv.
Qed.
End DisallowedEntries.

Lemma disallowed_entry_is_fatal_witness :
  level_entries (children (Some Demo.with_extra_asset)) InAssets
    = Some [("uris", Dir [("a.jar", File "A")]); ("notes.txt", File "see uris")] ∧
  matches_manifest (level_path InAssets "notes.txt") (File "see uris") = false ∧
  let run :=
    _bundle Demo.util "pkg" None "/cwd" "/tmp/tmpq"
      (Some Demo.with_extra_asset) ∅ in
  (∃ e, result run.2 = Raise e) ∧
  result run.2 = Raise (extra_file_error "pkg/assets/notes.txt").
Proof.
  split; [reflexivity|]. split; [reflexivity|].
  destruct (disallowed_entry_is_fatal Demo.util "pkg" None "/cwd" "/tmp/tmpq"
              (children (Some Demo.with_extra_asset)) ∅ InAssets
              [("uris", Dir [("a.jar", File "A")]);
               ("notes.txt", File "see uris")]
              "notes.txt" (File "see uris")
              eq_refl eq_refl eq_refl) as [Hfails Hnamed].
  split; [exact Hfails|].
  apply Hnamed. split; [by eexists|]. split.
  - intros d [= <-] m Hm Hle Hne.
    apply elem_of_cons in Hm as [->|Hm]; [by vm_compute in Hle|].
    apply elem_of_cons in Hm as [->|Hm]; [done|].
    by apply elem_of_nil in Hm.
  - intros inner [= <-] m Hm Hle Hne.
    apply elem_of_cons in Hm as [->|Hm]; [by vm_compute in Hle|].
    apply elem_of_cons in Hm as [->|Hm]; [done|].
    by apply elem_of_nil in Hm.
Defined.

(** C4 as stated does not hold: bundling stops at the first failure, and its
    one exception need not name a given disallowed entry.  With foo.txt next
    to a config.json that violates its schema the exception is the list of
    violations; with foo.txt and no package.json it is the missing-file
    error; with a.txt and b.txt it names a.txt and not b.txt. *)
Lemma disallowed_entry_not_always_named :
  (entry (children (Some Demo.invalid_config)) "foo.txt" = Some (File "hello") ∧
   matches_manifest (level_path Top "foo.txt") (File "hello") = false ∧
   ∃ e, result (_bundle Demo.util "pkg" None "/cwd" "/tmp/tmpq"
                  (Some Demo.invalid_config) ∅).2 = Raise e ∧
        e = DCOSException "'name' does not match the schema" ∧
        mentions (message e) "foo.txt" = false) ∧
  (entry (children (Some Demo.only_foo_txt)) "foo.txt" = Some (File "hello") ∧
   matches_manifest (level_path Top "foo.txt") (File "hello") = false ∧
   ∃ e, result (_bundle Demo.util "pkg" None "/cwd" "/tmp/tmpq"
                  (Some Demo.only_foo_txt) ∅).2 = Raise e ∧
        e = missing_package_json_error "pkg" ∧
        mentions (message e) "foo.txt" = false) ∧
  (entry (children (Some Demo.two_extras)) "b.txt" = Some (File "b") ∧
   matches_manifest (level_path Top "b.txt") (File "b") = false ∧
   ∃ e, result (_bundle Demo.util "pkg" None "/cwd" "/tmp/tmpq"
                  (Some Demo.two_extras) ∅).2 = Raise e ∧
        e = extra_file_error "pkg/a.txt" ∧
        mentions (message e) "b.txt" = false).
Proof.
  split_and!; try reflexivity;
    eexists; (split; [vm_compute; reflexivity|]); split; reflexivity.
Qed.

(** ** Install: the blocks and what they leave in the trace *)

Lemma free_nil kind : free kind [].
Proof. intros e He. by apply elem_of_nil in He. Qed.

Lemma free_cons kind e t : kind e = false → free kind t → free kind (e :: t).
Proof. intros He Ht e' [->|?]%elem_of_cons; auto. Qed.

Lemma free_app kind t1 t2 : free kind t1 → free kind t2 → free kind (t1 ++ t2).
Proof. intros H1 H2 e [?|?]%elem_of_app; auto. Qed.

Lemma free_bind {A B} kind (m : M A) (k : A → M B) :
  free kind (trace m) → (∀ a, free kind (trace (k a))) →
  free kind (trace (bind m k)).
Proof.
  destruct m as [t [a| |]]; simpl; intros Hm Hk; try done.
  specialize (Hk a). destruct (k a) as [t' o']. by apply free_app.
Qed.

Local Arguments String.append : simpl never.

Ltac solve_free :=
  repeat first
    [ apply free_nil
    | apply free_cons; [reflexivity|]
    | apply free_app
    | apply free_bind; [|intros ?] ];
  try assumption.

Lemma confirm_loop_free kind prompt stdin :
  (∀ s, kind (StdoutWrite s) = false) → (∀ v, kind (Publish v) = false) →
  free kind (trace (confirm_loop prompt stdin)).
Proof.
  intros Hw Hp. induction stdin as [|line stdin IH]; simpl.
  - apply free_cons; [done|]. apply free_cons; [done|]. apply free_nil.
  - destruct (orb _ _); [by apply free_cons; [|apply free_nil]|].
    destruct (orb _ _); [by apply free_cons; [|apply free_nil]|].
    destruct (confirm_loop prompt stdin) as [t [b| |]]; simpl in *;
      by repeat (apply free_cons; [done|]).
Qed.

Section InstallFacts.
Context (C : Cluster).

Lemma confirm_pre_install_free kind pkg_json yes stdin :
  (∀ s, kind (StdoutWrite s) = false) → (∀ v, kind (Publish v) = false) →
  free kind (trace (confirm_pre_install pkg_json yes stdin)).
Proof.
  intros Hw Hp. unfold confirm_pre_install.
  destruct (truthy _); [|apply free_nil].
  apply free_bind; [by apply free_cons; [|apply free_nil]|]. intros _.
  apply free_bind.
  - destruct yes; [apply free_nil|by apply confirm_loop_free].
  - intros []; [apply free_nil|].
    by apply free_cons; [|apply free_nil].
Qed.

Lemma user_options_pure options_path : trace (_user_options C options_path) = [].
Proof.
  destruct options_path as [path|]; [|done]. simpl.
  by destruct (read_json_file C path).
Qed.

Lemma show_post_install_notes_free kind pkg_json :
  (∀ v, kind (Publish v) = false) →
  free kind (trace (show_post_install_notes pkg_json)).
Proof.
  intros Hp. unfold show_post_install_notes.
  destruct (truthy _); [by apply free_cons; [|apply free_nil]|apply free_nil].
Qed.

Lemma install_marathon_step_free pkg rev options version app_id app :
  free is_subcommand_install
    (trace (install_marathon_step C pkg rev options version app_id app)).
Proof.
  unfold install_marathon_step. destruct (_ && _); [|apply free_nil].
  destruct (install_app C pkg rev options app_id); simpl; solve_free.
Qed.

Lemma install_marathon_step_skip pkg rev options version app_id app :
  app && has_marathon_definition rev = false →
  install_marathon_step C pkg rev options version app_id app = ret tt.
Proof. unfold install_marathon_step. by intros ->. Qed.

Lemma install_subcommand_step_free name pkg rev options version cli :
  free is_app_install
    (trace (install_subcommand_step C name pkg rev options version cli)).
Proof.
  unfold install_subcommand_step. destruct (_ && _); [|apply free_nil].
  destruct (subcommand_install C pkg rev options); simpl; [solve_free|].
  destruct (get_package_commands C name); simpl; solve_free.
Qed.

Lemma install_subcommand_step_skip name pkg rev options version cli :
  cli && has_command_definition rev = false →
  install_subcommand_step C name pkg rev options version cli = ret tt.
Proof. unfold install_subcommand_step. by intros ->. Qed.

(** What the subcommand step does when it runs. *)
Lemma install_subcommand_step_run name pkg rev options version cli :
  cli && has_command_definition rev = true →
  let step := install_subcommand_step C name pkg rev options version cli in
  match subcommand_install C pkg rev options with
  | None =>
      result step = Return tt ∧
      InstallSubcommand (Package.name pkg) (rev_id rev) ∈ trace step
  | Some e =>
      result step = Raise e ∧
      last (trace step) = Some (InstallSubcommand (Package.name pkg) (rev_id rev))
  end.
Proof.
  unfold install_subcommand_step. intros ->.
  destruct (subcommand_install C pkg rev options); simpl; [done|].
  destruct (get_package_commands C name); simpl;
    (split; [done|]); right; by left.
Qed.

Lemma install_marathon_step_run pkg rev options version app_id app :
  app && has_marathon_definition rev = true →
  let step := install_marathon_step C pkg rev options version app_id app in
  last (trace step) = Some (InstallApp (Package.name pkg) (rev_id rev) app_id) ∧
  result step = match install_app C pkg rev options app_id with
                | None => Return tt
                | Some e => Raise e
                end.
Proof.
  unfold install_marathon_step. intros ->.
  by destruct (install_app C pkg rev options app_id).
Qed.

Lemma install_app_only_if_declared name version options_path app_id cli app
    yes stdin pkg rev :
  resolve_package C name = Some pkg →
  latest_package_revision pkg version = Some rev →
  wants_app cli app && has_marathon_definition rev = false →
  free is_app_install
    (trace (_install C name version options_path app_id cli app yes stdin)).
Proof.
  intros Hres Hrev Hskip. unfold _install. rewrite Hres, Hrev.
  fold (wants_app cli app). fold (wants_cli cli app).
  apply free_bind; [solve_free|]. intros _.
  apply free_bind; [rewrite user_options_pure; apply free_nil|]. intros uo.
  apply free_bind; [by apply confirm_pre_install_free|]. intros proceed.
  destruct (negb proceed); [apply free_nil|].
  apply free_bind; [destruct (package_options C rev uo); apply free_nil|].
  intros options.
  rewrite install_marathon_step_skip by done.
  apply free_bind; [apply free_nil|]. intros _.
  apply free_bind; [apply install_subcommand_step_free|]. intros _.
  apply free_bind; [by apply show_post_install_notes_free|]. intros _.
  apply free_nil.
Qed.

Lemma install_subcommand_only_if_declared name version options_path app_id
    cli app yes stdin pkg rev :
  resolve_package C name = Some pkg →
  latest_package_revision pkg version = Some rev →
  wants_cli cli app && has_command_definition rev = false →
  free is_subcommand_install
    (trace (_install C name version options_path app_id cli app yes stdin)).
Proof.
  intros Hres Hrev Hskip. unfold _install. rewrite Hres, Hrev.
  fold (wants_app cli app). fold (wants_cli cli app).
  apply free_bind; [solve_free|]. intros _.
  apply free_bind; [rewrite user_options_pure; apply free_nil|]. intros uo.
  apply free_bind; [by apply confirm_pre_install_free|]. intros proceed.
  destruct (negb proceed); [apply free_nil|].
  apply free_bind; [destruct (package_options C rev uo); apply free_nil|].
  intros options.
  apply free_bind; [apply install_marathon_step_free|]. intros _.
  rewrite install_subcommand_step_skip by done.
  apply free_bind; [apply free_nil|]. intros _.
  apply free_bind; [by apply show_post_install_notes_free|]. intros _.
  apply free_nil.
Qed.

Lemma install_run name version options_path app_id cli app yes stdin
    pkg rev uo options :
  resolve_package C name = Some pkg →
  latest_package_revision pkg version = Some rev →
  _user_options C options_path = ret uo →
  result (confirm_pre_install (rev_package_json rev) yes stdin) = Return true →
  package_options C rev uo = inr options →
  let v := assoc_get (package_revisions_map pkg) (rev_id rev) in
  let steps :=
    install_marathon_step C pkg rev options v app_id (wants_app cli app);;;
    install_subcommand_step C name pkg rev options v (wants_cli cli app);;;
    show_post_install_notes (rev_package_json rev);;;
    ret 0%Z in
  _install C name version options_path app_id cli app yes stdin
  = (ResolvePackage name
       :: trace (confirm_pre_install (rev_package_json rev) yes stdin)
       ++ trace steps,
     result steps).
Proof.
  intros Hres Hrev Huo Hgo Hopt v steps. unfold _install.
  rewrite Hres, Hrev, Huo, bind_ret_l.
  fold (wants_app cli app). fold (wants_cli cli app).
  rewrite (bind_return _ _ true) by done. cbn [negb].
  rewrite Hopt. cbn [of_sum]. rewrite bind_ret_l. fold v. fold steps.
  unfold emit, bind. by destruct steps.
Qed.

End InstallFacts.

(** ** Install: confirmation, targets and notes *)

Lemma last_cons_app {A} (x : A) l l' y :
  last l' = Some y → last (x :: l ++ l') = Some y.
Proof.
  intros Hl. change (x :: l ++ l') with ((x :: l) ++ l').
  rewrite last_app. by rewrite Hl.
Qed.

Section InstallClaims.
Context (C : Cluster).

(** C6.  When the package declares pre-install notes, the --yes override is
    not set and the operator answers no to the prompt, install returns 0 and
    has changed neither target: its trace holds no call to the scheduler and
    no subcommand installation, and ends with the message of the exit. *)
Theorem install_declined_is_noop package_name package_version options_path
    app_id cli app stdin pkg pkg_revision user_options :
  resolve_package C package_name = Some pkg →
  latest_package_revision pkg package_version = Some pkg_revision →
  _user_options C options_path = ret user_options →
  truthy (dict_get (rev_package_json pkg_revision) "preInstallNotes") = true →
  result (_confirm "Continue installing?" false stdin) = Return false →
  let run :=
    _install C package_name package_version options_path app_id cli app
      false stdin in
  result run = Return 0%Z ∧
  free is_mutation (trace run) ∧
  last (trace run) = Some (Publish (PStr "Exiting installation.")).
Proof.
  intros Hres Hrev Huo Hnotes Hno run. subst run.
  unfold _install, confirm_pre_install. rewrite Hres, Hrev, Huo, Hnotes.
  pose proof (confirm_loop_free is_mutation "Continue installing?" stdin
                (λ _, eq_refl) (λ _, eq_refl)) as Hq.
  unfold _confirm in *.
  destruct (confirm_loop _ _) as [tc oc]. simpl in Hno, Hq. subst oc.
  cbn. split_and!; [done| |].
  - solve_free.
  - by rewrite app_nil_r, !last_cons, last_snoc.
Qed.

(** C7.  A requested target whose template the revision does not declare is
    skipped and is no error.  The scheduler step leaves a trace only if the
    revision has a marathon definition, the subcommand step only if it has a
    command definition; a revision that declares neither installs nothing and
    returns 0; and with both targets requested on a revision that declares a
    command template only, the subcommand is installed, the scheduler is not
    called, and install returns 0. *)
Theorem install_skips_undeclared_targets package_name package_version
    options_path app_id cli app yes stdin pkg pkg_revision :
  resolve_package C package_name = Some pkg →
  latest_package_revision pkg package_version = Some pkg_revision →
  let run :=
    _install C package_name package_version options_path app_id cli app
      yes stdin in
  (* each step runs only if the revision declares its template *)
  (has_marathon_definition pkg_revision = false →
   free is_app_install (trace run)) ∧
  (has_command_definition pkg_revision = false →
   free is_subcommand_install (trace run)) ∧
  (* and a template that is not declared is no error *)
  ∀ user_options options,
    _user_options C options_path = ret user_options →
    result (confirm_pre_install (rev_package_json pkg_revision) yes stdin)
      = Return true →
    package_options C pkg_revision user_options = inr options →
    (has_marathon_definition pkg_revision = false →
     has_command_definition pkg_revision = false →
     result run = Return 0%Z ∧ free is_mutation (trace run)) ∧
    (has_marathon_definition pkg_revision = false →
     has_command_definition pkg_revision = true →
     wants_cli cli app = true →
     subcommand_install C pkg pkg_revision options = None →
     result run = Return 0%Z ∧
     InstallSubcommand (Package.name pkg) (rev_id pkg_revision) ∈ trace run ∧
     free is_app_install (trace run)).
Proof.
  intros Hres Hrev run. subst run. split_and!.
  - intros Hno. apply install_app_only_if_declared with pkg pkg_revision;
      [done..|]. by rewrite Hno, andb_false_r.
  - intros Hno. apply install_subcommand_only_if_declared with pkg pkg_revision;
      [done..|]. by rewrite Hno, andb_false_r.
  - intros uo options Huo Hgo Hopt. split.
    + intros Hm Hc. split.
      * rewrite (install_run C _ _ _ _ _ _ _ _ pkg pkg_revision uo options)
          by done. simpl result.
        rewrite install_marathon_step_skip by (by rewrite Hm, andb_false_r).
        rewrite install_subcommand_step_skip by (by rewrite Hc, andb_false_r).
        unfold show_post_install_notes. by destruct (truthy _).
      * intros e He. unfold is_mutation.
        rewrite (install_app_only_if_declared C _ _ _ _ _ _ _ _ pkg
                   pkg_revision Hres Hrev) by
          (by rewrite ?Hm, ?andb_false_r).
        rewrite (install_subcommand_only_if_declared C _ _ _ _ _ _ _ _ pkg
                   pkg_revision Hres Hrev) by
          (by rewrite ?Hc, ?andb_false_r).
        all: done.
    + intros Hm Hc Hcli Hok. split_and!.
      * rewrite (install_run C _ _ _ _ _ _ _ _ pkg pkg_revision uo options)
          by done. simpl result.
        rewrite install_marathon_step_skip by (by rewrite Hm, andb_false_r).
        pose proof (install_subcommand_step_run C package_name pkg pkg_revision
          options (assoc_get (package_revisions_map pkg) (rev_id pkg_revision))
          (wants_cli cli app)) as Hrun.
        rewrite Hcli, Hc, Hok in Hrun. destruct Hrun as [Hr _]; [done|].
        rewrite Hcli.
        rewrite bind_ret_l. rewrite (bind_return _ _ _ Hr). simpl.
        unfold show_post_install_notes. by destruct (truthy _).
      * rewrite (install_run C _ _ _ _ _ _ _ _ pkg pkg_revision uo options)
          by done. simpl trace.
        rewrite install_marathon_step_skip by (by rewrite Hm, andb_false_r).
        pose proof (install_subcommand_step_run C package_name pkg pkg_revision
          options (assoc_get (package_revisions_map pkg) (rev_id pkg_revision))
          (wants_cli cli app)) as Hrun.
        rewrite Hcli, Hc, Hok in Hrun. destruct Hrun as [Hr Hin]; [done|].
        rewrite Hcli.
        rewrite bind_ret_l. rewrite (bind_return _ _ _ Hr). simpl.
        right. apply elem_of_app. right. apply elem_of_app. by left.
      * apply install_app_only_if_declared with pkg pkg_revision; [done..|].
        by rewrite Hm, andb_false_r.
Qed.
(** C1, as the code has it.  The post-install notes are published whenever
    install runs to its end, which is when no step that ran has failed, also
    when no step ran at all; they are the last thing install does.  When a
    step fails, install ends there with the exception of that step and the
    notes are not reached. *)
Theorem post_install_notes_when_install_completes package_name package_version
    options_path app_id cli app yes stdin pkg pkg_revision user_options options
    notes :
  resolve_package C package_name = Some pkg →
  latest_package_revision pkg package_version = Some pkg_revision →
  _user_options C options_path = ret user_options →
  result (confirm_pre_install (rev_package_json pkg_revision) yes stdin)
    = Return true →
  package_options C pkg_revision user_options = inr options →
  dict_get (rev_package_json pkg_revision) "postInstallNotes" = notes →
  truthy notes = true →
  let run :=
    _install C package_name package_version options_path app_id cli app
      yes stdin in
  let app_failure :=
    if wants_app cli app && has_marathon_definition pkg_revision
    then install_app C pkg pkg_revision options app_id else None in
  let cli_failure :=
    if wants_cli cli app && has_command_definition pkg_revision
    then subcommand_install C pkg pkg_revision options else None in
  match app_failure, cli_failure with
  | None, None =>
      result run = Return 0%Z ∧ last (trace run) = Some (Publish notes)
  | Some e, _ =>
      result run = Raise e ∧
      last (trace run)
      = Some (InstallApp (Package.name pkg) (rev_id pkg_revision) app_id)
  | None, Some e =>
      result run = Raise e ∧
      last (trace run)
      = Some (InstallSubcommand (Package.name pkg) (rev_id pkg_revision))
  end.
Proof.
  intros Hres Hrev Huo Hgo Hopt Hnotes Htruthy run. subst run.
  rewrite (install_run C _ _ _ _ _ _ _ _ pkg pkg_revision user_options options)
    by done.
  unfold install_marathon_step, install_subcommand_step, show_post_install_notes.
  rewrite Hnotes, Htruthy.
  destruct (wants_app cli app && has_marathon_definition pkg_revision);
    destruct (wants_cli cli app && has_command_definition pkg_revision);
    cbv zeta;
    try destruct (install_app C pkg pkg_revision options app_id);
    try destruct (subcommand_install C pkg pkg_revision options);
    try destruct (get_package_commands C package_name);
    simpl; (split; [done|]); by apply last_cons_app.
Qed.
End InstallClaims.

(** ** Describe: versions and raw templates *)

Lemma latest_package_revision_absent pkg v :
  v ∉ (package_revisions_map pkg).*2 →
  latest_package_revision pkg (Some v) = None.
Proof.
  unfold latest_package_revision, package_revisions_map.
  induction (revisions pkg) as [|r rs IH]; [done|].
  rewrite !fmap_cons, not_elem_of_cons. simpl. intros [Hne Hrs].
  rewrite filter_cons_False by congruence. by apply IH.
Qed.

Lemma version_message_not_package_message v name other :
  version_not_available v name ≠ package_not_found_install other ∧
  version_not_available v name ≠ package_not_found_describe other.
Proof.
  unfold version_not_available, package_not_found_install,
    package_not_found_describe.
  split; intros Heq; vm_compute in Heq; discriminate Heq.
Qed.

Lemma last_char_snoc s c : last_char (s +:+ String c "") = Some c.
Proof.
  induction s as [|a s IH]; [done|].
  change (String a s +:+ String c "") with (String a (s +:+ String c "")).
  simpl. rewrite IH. by destruct (s +:+ String c "") eqn:E; [destruct s|].
Qed.

Lemma drop_last_snoc s c : drop_last (s +:+ String c "") = s.
Proof.
  induction s as [|a s IH]; [done|].
  change (String a s +:+ String c "") with (String a (s +:+ String c "")).
  simpl. rewrite IH. by destruct (s +:+ String c "") eqn:E; [destruct s|].
Qed.

Lemma strip_newline_one s : strip_newline (s +:+ nl) = s.
Proof.
  unfold strip_newline, endswith, nl.
  rewrite last_char_snoc, drop_last_snoc, Ascii.eqb_refl, andb_true_r.
  by destruct s.
Qed.

Lemma strip_newline_none s : endswith s newline = false → strip_newline s = s.
Proof. unfold strip_newline. intros ->. by rewrite andb_false_r. Qed.

Section DescribeClaims.
Context (C : Cluster).

(** C5.  An explicit version that is absent from the revision map of a
    resolved package makes install and describe fail with "Version V of
    package [P] is not available"; an unknown package makes them fail with a
    "Package [P] not found" message.  The version message is none of the
    "not found" messages, whatever the package names and the version: the two
    failures cannot be taken for each other, also for one and the same
    request. *)
Theorem version_unavailable_is_distinct package_name v pkg :
  resolve_package C package_name = Some pkg →
  v ∉ (package_revisions_map pkg).*2 →
  let unavailable :=
    DCOSException ("Version " +:+ v +:+ " of package [" +:+ package_name
                     +:+ "] is not available") in
  let not_found_install other :=
    DCOSException ("Package [" +:+ other +:+ "] not found" +:+ nl
                     +:+ "You may need to run 'dcos package update' to "
                     +:+ "update your repositories") in
  let not_found_describe other :=
    DCOSException ("Package [" +:+ other +:+ "] not found") in
  (∀ options_path app_id cli app yes stdin,
     _install C package_name (Some v) options_path app_id cli app yes stdin
     = ([ResolvePackage package_name], Raise unavailable)) ∧
  (∀ app cli options_path render config,
     _describe C package_name app cli options_path render false (Some v) config
     = ([ResolvePackage package_name], Raise unavailable)) ∧
  (∀ unknown,
     resolve_package C unknown = None →
     (∀ version options_path app_id cli app yes stdin,
        result (_install C unknown version options_path app_id cli app yes
                  stdin) = Raise (not_found_install unknown)) ∧
     (∀ app cli options_path render version config,
        result (_describe C unknown app cli options_path render false version
                  config) = Raise (not_found_describe unknown))) ∧
  (∀ other,
     unavailable ≠ not_found_install other ∧
     unavailable ≠ not_found_describe other).
Proof.
  intros Hres Habsent unavailable not_found_install not_found_describe.
  pose proof (latest_package_revision_absent pkg v Habsent) as Hnone.
  split_and!.
  - intros. unfold _install. by rewrite Hres, Hnone.
  - intros. unfold _describe. by rewrite Hres, Hnone.
  - intros unknown Hunknown. split.
    + intros. unfold _install. by rewrite Hunknown.
    + intros. unfold _describe. by rewrite Hunknown.
  - intros other. subst unavailable not_found_install not_found_describe.
    split; intros Heq; injection Heq as Heq; vm_compute in Heq;
      discriminate Heq.
Qed.

(** X24.  With --package-versions, any of --app, --cli, --render and
    --config, or an --options or --package-version whose value is not empty,
    makes describe raise before it resolves the package: the trace is
    empty. *)
Theorem describe_package_versions_alone package_name app cli options_path
    render package_version config :
  app || cli || truthy_str options_path || render
    || truthy_str package_version || config = true →
  _describe C package_name app cli options_path render true package_version
    config
  = ([], Raise (DCOSException
                  "If --package-versions is provided, no other option can be provided")).
Proof.
  intros Hother. unfold _describe.
  destruct app, cli, (truthy_str options_path), render,
    (truthy_str package_version), config; try done.
Qed.
Lemma describe_raw package_name app cli config package_version pkg
    pkg_revision options command marathon schema :
  resolve_package C package_name = Some pkg →
  latest_package_revision pkg package_version = Some pkg_revision →
  is_Some (rev_package_json pkg_revision !! "version") →
  package_options C pkg_revision (PDict ∅) = inr options →
  app || cli = true →
  (cli = true → rev_command_template pkg_revision = Some command) →
  (app = true → rev_marathon_template pkg_revision = Some marathon) →
  (config = true → rev_config_json pkg_revision = Some schema) →
  _describe C package_name app cli None false false package_version config
  = (ResolvePackage package_name
       :: (if cli then [Publish (PStr (strip_newline command))] else [])
       ++ (if app then [Publish (PStr (strip_newline marathon))] else [])
       ++ (if config then [Publish schema] else []),
     Return 0%Z).
Proof.
  intros Hres Hrev [v Hv] Hopt Hreq Hcli Happ Hconfig.
  unfold _describe, command_template, marathon_template, config_json.
  rewrite Hres, Hrev. cbn [truthy_str andb].
  destruct package_version; rewrite ?Hv;
    destruct app, cli; try done; simpl; rewrite Hopt;
    rewrite ?(Hcli eq_refl), ?(Happ eq_refl);
    destruct config; rewrite ?(Hconfig eq_refl); done.
Qed.
End DescribeClaims.

Section TemplateInArchive.
Context (U : Util).

Lemma bundle_walk_keeps_template dir entries data :
  entry entries "marathon.json.mustache" = Some (File data) →
  returns (bundle_walk U dir entries) →
  ZipWrite "marathon.json.mustache" data ∈ trace (bundle_walk U dir entries).
Proof.
  intros Hentry Hret.
  destruct (for_each_returns_inv _ _ "marathon.json.mustache" Hret) as [_ Hsub].
  { apply elem_of_sorted. by eapply entry_listed. }
  apply Hsub. rewrite Hentry. unfold bundle_entry. simpl. by left.
Qed.
End TemplateInArchive.

(** C8.  A raw template shown by describe loses exactly one trailing newline
    when it has one and is unchanged otherwise: for the templates that the
    revision declares, describe without --render publishes the command
    template and then the app template, each stripped in that way (and the
    configuration after them when --config is set).  The bundler stores
    marathon.json.mustache in the archive byte for byte. *)
Theorem raw_template_newline :
  (∀ template, strip_newline (template +:+ nl) = template) ∧
  (∀ template, endswith template newline = false →
               strip_newline template = template) ∧
  (∀ (C : Cluster) package_name app cli config package_version pkg
     pkg_revision options command marathon schema,
     resolve_package C package_name = Some pkg →
     latest_package_revision pkg package_version = Some pkg_revision →
     is_Some (rev_package_json pkg_revision !! "version") →
     package_options C pkg_revision (PDict ∅) = inr options →
     app || cli = true →
     (cli = true → rev_command_template pkg_revision = Some command) →
     (app = true → rev_marathon_template pkg_revision = Some marathon) →
     (config = true → rev_config_json pkg_revision = Some schema) →
     _describe C package_name app cli None false false package_version config
     = (ResolvePackage package_name
          :: (if cli then [Publish (PStr (strip_newline command))] else [])
          ++ (if app then [Publish (PStr (strip_newline marathon))] else [])
          ++ (if config then [Publish schema] else []),
        Return 0%Z)) ∧
  (∀ (U : Util) dir entries data,
     entry entries "marathon.json.mustache" = Some (File data) →
     bundle_entry U dir "marathon.json.mustache" (Some (File data))
     = emit (ZipWrite "marathon.json.mustache" data) ∧
     (returns (bundle_walk U dir entries) →
      ZipWrite "marathon.json.mustache" data
      ∈ trace (bundle_walk U dir entries))).
Proof.
  split_and!.
  - apply strip_newline_one.
  - apply strip_newline_none.
  - apply describe_raw.
  - intros U dir entries data Hentry. split; [done|].
    by apply bundle_walk_keeps_template.
Qed.

(** ** List: the filter on the app id *)

(** C9.  The filter on the app id returns a truth value for a record that
    carries its list of apps, and for every record when no app id is asked
    for; on a record without the 'apps' key and with an app id it tests
    membership in [None] and raises a [TypeError], and [package list
    --app-id=ID] fails with it on reaching such a record. *)
Theorem matches_app_id_needs_apps (pkg_info : gmap string pyval) app_id :
  (pkg_info !! "apps" = None →
   _matches_app_id (Some app_id) pkg_info = raise type_error_none) ∧
  (∀ l, pkg_info !! "apps" = Some (PList l) →
        returns (_matches_app_id (Some app_id) pkg_info)) ∧
  _matches_app_id None pkg_info = ret true ∧
  (pkg_info !! "apps" = None →
   ∀ before after json_,
     Forall (λ r : gmap string pyval, ∃ l, r !! "apps" = Some (PList l)) before →
     _list (before ++ pkg_info :: after) json_ (Some app_id) None
     = raise type_error_none).
Proof.
  split_and!.
  - intros Hnone. unfold _matches_app_id, dict_get. by rewrite Hnone.
  - intros l Hl. unfold _matches_app_id, dict_get. rewrite Hl. by eexists.
  - done.
  - intros Hnone before after json_ Hbefore. unfold _list.
    assert (list_results (before ++ pkg_info :: after) (Some app_id) None
            = raise type_error_none) as ->; [|done].
    induction Hbefore as [|r rs [l Hl] _ IH].
    + simpl. unfold _matches_app_id, dict_get. by rewrite Hnone.
    + simpl. rewrite IH. unfold _matches_app_id, dict_get. rewrite Hl. simpl.
      destruct (existsb _ l); simpl; [|done].
      destruct (negb _); simpl; rewrite ?Hl; done.
Qed.

(** ** The properties at work in the small world *)

Lemma install_declined_is_noop_witness :
  let run :=
    _install Demo.cluster "guarded" None None (Some "/beta") false false false
      ["maybe"; " No "] in
  result (_confirm "Continue installing?" false ["maybe"; " No "])
    = Return false ∧
  result run = Return 0%Z ∧
  free is_mutation (trace run) ∧
  last (trace run) = Some (Publish (PStr "Exiting installation.")).
Proof.
  split; [reflexivity|].
  apply (install_declined_is_noop Demo.cluster "guarded" None None
           (Some "/beta") false false ["maybe"; " No "]
           Demo.guarded Demo.guarded_latest (PDict ∅));
    reflexivity.
Defined.

Lemma install_skips_undeclared_targets_witness :
  let run :=
    _install Demo.cluster "cli-only" None None None true true false [] in
  has_marathon_definition Demo.cli_only_latest = false ∧
  has_command_definition Demo.cli_only_latest = true ∧
  result run = Return 0%Z ∧
  InstallSubcommand "cli-only" "1" ∈ trace run ∧
  free is_app_install (trace run).
Proof.
  split; [reflexivity|]. split; [reflexivity|].
  destruct (install_skips_undeclared_targets Demo.cluster "cli-only" None None
              None true true false [] Demo.cli_only Demo.cli_only_latest
              eq_refl eq_refl) as (_ & _ & Hscenario).
  destruct (Hscenario (PDict ∅) (PDict ∅) eq_refl eq_refl eq_refl)
    as [_ Hcli].
  exact (Hcli eq_refl eq_refl eq_refl eq_refl).
Defined.

Lemma post_install_notes_when_install_completes_witness :
  let run :=
    _install Demo.cluster "cli-only" None None None false false false [] in
  result run = Return 0%Z ∧
  last (trace run) = Some (Publish (PStr "Try: dcos demo")).
Proof.
  exact (post_install_notes_when_install_completes Demo.cluster "cli-only"
           None None None false false false [] Demo.cli_only
           Demo.cli_only_latest (PDict ∅) (PDict ∅) (PStr "Try: dcos demo")
           eq_refl eq_refl eq_refl eq_refl eq_refl eq_refl eq_refl).
Defined.

(** C1 as stated does not hold: the package declares neither template, so both
    targets are skipped and nothing is installed, and the post-install notes
    are published all the same. *)
Lemma install_notes_without_target :
  let run :=
    _install Demo.cluster "notes-only" None None None true true false [] in
  resolve_package Demo.cluster "notes-only" = Some Demo.notes_only ∧
  has_marathon_definition Demo.notes_only_latest = false ∧
  has_command_definition Demo.notes_only_latest = false ∧
  run = ([ResolvePackage "notes-only"; Publish (PStr "All set.")],
         Return 0%Z) ∧
  forallb (λ e, negb (is_mutation e)) (trace run) = true.
Proof. vm_compute. by split_and!. Qed.

Lemma version_unavailable_is_distinct_witness :
  ("9" ∉ (package_revisions_map Demo.guarded).*2) ∧
  _install Demo.cluster "guarded" (Some "9") None None false false false []
  = ([ResolvePackage "guarded"],
     Raise (DCOSException "Version 9 of package [guarded] is not available")) ∧
  _describe Demo.cluster "guarded" true false None false false (Some "9") false
  = ([ResolvePackage "guarded"],
     Raise (DCOSException "Version 9 of package [guarded] is not available")) ∧
  DCOSException "Version 9 of package [guarded] is not available"
  ≠ DCOSException "Package [guarded] not found".
Proof.
  assert ("9" ∉ (package_revisions_map Demo.guarded).*2) as Habsent.
  { intros Hin. change ("9" ∈ ["2.0"]) in Hin.
    apply elem_of_cons in Hin as [Hin|Hin]; [discriminate Hin|].
    by apply elem_of_nil in Hin. }
  split; [exact Habsent|].
  destruct (version_unavailable_is_distinct Demo.cluster "guarded" "9"
              Demo.guarded eq_refl Habsent)
    as (Hinstall & Hdescribe & _ & Hdistinct).
  split_and!; [apply Hinstall|apply Hdescribe|].
  exact (proj2 (Hdistinct "guarded")).
Defined.

Lemma describe_package_versions_alone_witness :
  _describe Demo.cluster "cli-only" false false (Some "options.json") false
    true None false
  = ([], Raise (DCOSException
                  "If --package-versions is provided, no other option can be provided")).
Proof.
  exact (describe_package_versions_alone Demo.cluster "cli-only" false false
           (Some "options.json") false None false eq_refl).
Defined.

(** C10.  The guard of --package-versions misses an option that is given
    with an empty value: [describe cli-only --package-versions --options='']
    raises nothing, resolves the package, lists its versions and returns 0. *)
Lemma describe_package_versions_with_empty_options :
  _describe Demo.cluster "cli-only" false false (Some "") false true None false
  = ([ResolvePackage "cli-only"; Publish (PStr ("1.0" +:+ nl +:+ "0.9"))],
     Return 0%Z).
Proof. vm_compute. reflexivity. Qed.

Lemma raw_template_newline_witness :
  strip_newline ("{app}" +:+ nl +:+ nl) = "{app}" +:+ nl ∧
  strip_newline "{cmd}" = "{cmd}" ∧
  _describe Demo.cluster "guarded" true true None false false None false
  = ([ResolvePackage "guarded"; Publish (PStr "{cmd}");
      Publish (PStr ("{app}" +:+ nl))],
     Return 0%Z) ∧
  ZipWrite "marathon.json.mustache" ("{}" +:+ nl)
  ∈ trace (bundle_walk Demo.util "pkg" (children (Some Demo.full))).
Proof.
  destruct raw_template_newline as (Hone & Hnone & Hdescribe & Hbundle).
  split_and!.
  - exact (Hone ("{app}" +:+ nl)).
  - exact (Hnone "{cmd}" eq_refl).
  - exact (Hdescribe Demo.cluster "guarded" true true false None
             Demo.guarded Demo.guarded_latest (PDict ∅) "{cmd}"
             ("{app}" +:+ nl +:+ nl) PNone eq_refl eq_refl
             (ex_intro _ (PStr "2.0") eq_refl) eq_refl eq_refl
             (λ _, eq_refl) (λ _, eq_refl) (λ H, False_ind _ (diff_false_true H))).
  - destruct (Hbundle Demo.util "pkg" (children (Some Demo.full))
                ("{}" +:+ nl) eq_refl) as [_ Hin].
    apply Hin. eexists. vm_compute. reflexivity.
Defined.

Lemma matches_app_id_needs_apps_witness :
  let helloworld : gmap string pyval := {["name" := PStr "helloworld"]} in
  _matches_app_id (Some "/chronos") helloworld = raise type_error_none ∧
  _list Demo.installed false (Some "/chronos") None = raise type_error_none.
Proof.
  destruct (matches_app_id_needs_apps {["name" := PStr "helloworld"]}
              "/chronos") as (Hfilter & _ & _ & Hlist).
  split; [exact (Hfilter eq_refl)|].
  apply (Hlist eq_refl
           [ <["name" := PStr "chronos"]> {["apps" := PList [PStr "/chronos"]]} ]
           [] false).
  repeat constructor. by eexists.
Defined.

(** * Further properties *)

(** ** Archive builder: what goes into the archive *)

Lemma all_events_nil P : all_events P [].
Proof. intros e He. by apply elem_of_nil in He. Qed.

Lemma all_events_cons P e t : P e → all_events P t → all_events P (e :: t).
Proof. intros He Ht e' [->|?]%elem_of_cons; auto. Qed.

Lemma all_events_app P t1 t2 :
  all_events P t1 → all_events P t2 → all_events P (t1 ++ t2).
Proof. intros H1 H2 e [?|?]%elem_of_app; auto. Qed.

Lemma all_events_bind {A B} P (m : M A) (k : A → M B) :
  all_events P (trace m) →
  (∀ a, result m = Return a → all_events P (trace (k a))) →
  all_events P (trace (bind m k)).
Proof.
  destruct m as [t [a| |]]; simpl; intros Hm Hk; try done.
  specialize (Hk a eq_refl). destruct (k a) as [t' o'].
  by apply all_events_app.
Qed.

Lemma all_events_for_each {A} P (l : list A) (body : A → M unit) :
  (∀ x, x ∈ l → all_events P (trace (body x))) →
  all_events P (trace (for_each l body)).
Proof.
  induction l as [|x l IH]; intros Hb; simpl; [apply all_events_nil|].
  apply all_events_bind; [apply Hb; by left|].
  intros _ _. apply IH. intros y Hy. apply Hb. by right.
Qed.

Lemma all_events_walk P entries (body : string → option node → M unit) :
  (∀ name target, all_events P (trace (body name target))) →
  all_events P (trace (walk entries body)).
Proof. intros Hb. apply all_events_for_each. intros; apply Hb. Qed.

(** *** [os.path.basename] undoes [os.path.join] *)

Lemma basename_from_slashless f rest :
  slashless f = true → basename_from f rest = rest.
Proof.
  revert rest. induction f as [|c f IH]; intros rest; simpl; [done|].
  intros [Hc Hf]%andb_true_iff. apply negb_true_iff in Hc. rewrite Hc.
  by apply IH.
Qed.

Lemma basename_from_sep a f rest :
  slashless f = true → basename_from (a +:+ "/" +:+ f) rest = f.
Proof.
  intros Hf. revert rest. induction a as [|c a IH]; intros rest.
  - change ("" +:+ "/" +:+ f) with (String "/"%char f). simpl.
    by apply basename_from_slashless.
  - change (String c a +:+ "/" +:+ f) with (String c (a +:+ "/" +:+ f)).
    simpl. destruct (Ascii.eqb c "/"); apply IH.
Qed.

Lemma endswith_inv a c :
  endswith a c = true → ∃ a0, a = a0 +:+ String c "".
Proof.
  unfold endswith. induction a as [|x a IH]; simpl; [done|].
  destruct a as [|y a'].
  - intros Heq%Ascii.eqb_eq. subst. by exists "".
  - intros H. destruct (IH H) as [a0 Ha0]. exists (String x a0).
    change (String x a0 +:+ String c "") with (String x (a0 +:+ String c "")).
    by rewrite <-Ha0.
Qed.

Lemma append_assoc (a b c : string) : (a +:+ b) +:+ c = a +:+ (b +:+ c).
Proof.
  induction a as [|x a IH]; [done|].
  change (String x a +:+ b) with (String x (a +:+ b)).
  change (String x (a +:+ b) +:+ c) with (String x ((a +:+ b) +:+ c)).
  change (String x a +:+ (b +:+ c)) with (String x (a +:+ (b +:+ c))).
  by rewrite IH.
Qed.

Lemma basename_path_join dir f :
  slashless f = true → basename (path_join dir f) = f.
Proof.
  intros Hf. unfold basename, path_join.
  assert (startswith f "/" = false) as ->.
  { destruct f as [|c f]; [done|]. simpl in *.
    apply andb_true_iff in Hf as [Hc _]. by apply negb_true_iff in Hc. }
  destruct (String.eqb_spec dir "") as [->|Hne]; simpl.
  - by apply basename_from_slashless.
  - destruct (endswith dir "/") eqn:Hend.
    + apply endswith_inv in Hend as [a0 ->].
      rewrite append_assoc. by apply basename_from_sep.
    + by apply basename_from_sep.
Qed.

Section Members.
Context (U : Util).

Lemma validate_json_file_returns dir name target doc :
  name ∈ json_names →
  result (_validate_json_file U (path_join dir name) target) = Return doc →
  ∃ data, target = Some (File data) ∧ load_json U data = inr doc ∧
          validate_json U doc ("data/universe-schema/" +:+ name) = [].
Proof.
  intros Hname. unfold _validate_json_file.
  assert (slashless name = true) as Hslash.
  { unfold json_names in Hname. rewrite !elem_of_cons, elem_of_nil in Hname.
    by destruct Hname as [->|[->|[->|[]]]]. }
  rewrite (basename_path_join _ _ Hslash).
  rewrite bool_decide_true.
  2:{ unfold json_names in Hname. rewrite !elem_of_cons, elem_of_nil in *.
      tauto. }
  rewrite bind_ret_l.
  destruct target as [[data|es]|]; try done. simpl.
  destruct (load_json U data) as [e|doc'] eqn:Hload; [done|]. simpl.
  destruct (validate_json U doc' _) eqn:Herrs; [|done].
  simpl. intros [= <-]. by exists data.
Qed.

Lemma zip_write_events P fullpath target arcname :
  (∀ data, target = Some (File data) → P (ZipWrite arcname data)) →
  (∀ es, target = Some (Dir es) → P (ZipWrite (arcname +:+ "/") "")) →
  all_events P (trace (zip_write fullpath target arcname)).
Proof.
  intros Hfile Hdir. destruct target as [[data|es]|]; simpl.
  - apply all_events_cons; [by apply Hfile|apply all_events_nil].
  - apply all_events_cons; [by eapply Hdir|apply all_events_nil].
  - apply all_events_nil.
Qed.

Lemma validate_png_returns fullpath target :
  returns (validate_png U fullpath target) →
  ∃ data, target = Some (File data) ∧ is_png U data = true.
Proof.
  unfold validate_png. destruct target as [[data|es]|];
    try (by intros [? [=]]).
  simpl. destruct (is_png U data) eqn:Hpng; [by eexists|by intros [? [=]]].
Qed.

Lemma validate_png_silent fullpath target :
  trace (validate_png U fullpath target) = [].
Proof.
  unfold validate_png. destruct target as [[data|es]|]; try done.
  simpl. by destruct (is_png U data).
Qed.

(** An image is written only after it has been validated. *)
Lemma png_member_events fullpath target arcname :
  all_events
    (λ e, ∃ data, e = ZipWrite arcname data ∧ is_png U data = true)
    (trace (bind (validate_png U fullpath target)
              (λ _, zip_write fullpath target arcname))).
Proof.
  apply all_events_bind.
  - rewrite validate_png_silent. apply all_events_nil.
  - intros [] Hret.
    destruct (validate_png_returns fullpath target) as (data & -> & Hpng);
      [by eexists|].
    simpl. apply all_events_cons; [by exists data|apply all_events_nil].
Qed.

Lemma bundle_entry_members dir name target :
  all_events (member_ok U) (trace (bundle_entry U dir name target)).
Proof.
  unfold bundle_entry.
  destruct (String.eqb_spec name "marathon.json.mustache") as [->|_].
  { apply zip_write_events; simpl; intros; tauto. }
  case_bool_decide as Hjson.
  { apply all_events_bind.
    - intros e He.
      pose proof (validate_json_file_members U (path_join dir name) target)
        as Hnone.
      unfold zip_members in Hnone.
      destruct e; try done. exfalso.
      assert ((arcname, data)
              ∈ omap (λ e, match e with
                           | ZipWrite a d => Some (a, d)
                           | _ => None
                           end)
                  (trace (_validate_json_file U (path_join dir name) target)))
        as Hin by (apply list_elem_of_omap; by eexists).
      rewrite Hnone in Hin. by apply elem_of_nil in Hin.
    - intros doc Hdoc.
      destruct (validate_json_file_returns dir name target doc Hjson Hdoc)
        as (data & -> & Hload & Hvalid).
      simpl. apply all_events_cons; [|apply all_events_nil].
      left. split; [done|]. by exists doc. }
  destruct (_ && _).
  { apply all_events_walk. intros n t. unfold assets_entry.
    destruct (_ && _); [|apply all_events_nil].
    apply all_events_walk. intros n' t'. unfold uris_entry.
    apply zip_write_events; simpl; intros; do 3 right; left.
    - by eexists.
    - exists (n' +:+ "/"). by rewrite append_assoc. }
  destruct (_ && _); [|apply all_events_nil].
  apply all_events_walk. intros n t. unfold images_entry.
  destruct (_ || _) eqn:Hicon.
  { intros e He. apply png_member_events in He as (data & -> & Hpng).
    simpl. do 4 right. left. exists n. split_and!; [|done..].
    unfold icon_names. rewrite !elem_of_cons.
    apply orb_true_iff in Hicon as [[H|H]%orb_true_iff|H];
      apply String.eqb_eq in H; auto. }
  destruct (_ && _); [|apply all_events_nil].
  apply all_events_walk. intros n' t'. unfold screenshots_entry.
  intros e He. apply png_member_events in He as (data & -> & Hpng).
  simpl. do 5 right. by exists n'.
Qed.

(** Every member that a walk writes is allowed and has been checked. *)
Lemma bundle_walk_members dir entries :
  all_events (member_ok U) (trace (bundle_walk U dir entries)).
Proof. apply all_events_walk. intros; apply bundle_entry_members. Qed.

End Members.

Section ArchiveContents.
Context (U : Util).

(** The members of a run of [_bundle] are those its walk wrote. *)
Lemma bundle_members_in_walk dir out cwd tmp src (fs : gmap string string)
    arcname data :
  (arcname, data) ∈ zip_members (_bundle U dir out cwd tmp src fs).2.1 →
  ZipWrite arcname data ∈ trace (bundle_walk U dir (children src)).
Proof.
  rewrite bundle_run. cbv zeta.
  assert (∀ t, (arcname, data) ∈ zip_members t → ZipWrite arcname data ∈ t)
    as Hmember.
  { intros t (e & He & Heq)%list_elem_of_omap.
    destruct e; try done. by injection Heq as -> ->. }
  destruct (negb _); [by intros ?%elem_of_nil|].
  pose proof (validate_json_file_members U (path_join dir "package.json")
                (entry (children src) "package.json")) as Hm.
  destruct (_validate_json_file _ _ _) as [t0 o0]. simpl in Hm.
  assert (∀ t, (arcname, data) ∈ zip_members (t0 ++ t) →
               (arcname, data) ∈ zip_members t) as Hskip.
  { intros t. unfold zip_members in *. rewrite omap_app, Hm. done. }
  destruct (bundle_walk _ _ _) as [tw ow]. simpl.
  assert (∀ e, (arcname, data) ∈ zip_members (t0 ++ tw ++ [created_message e])
               → ZipWrite arcname data ∈ tw) as Hcreated.
  { intros e Hin%Hskip. apply Hmember. unfold zip_members in *.
    rewrite omap_app in Hin. simpl in Hin. by rewrite app_nil_r in Hin. }
  destruct o0 as [pj| |]; simpl;
    try (rewrite Hm; by intros ?%elem_of_nil).
  destruct ow as [[]| |]; simpl; try (by intros ?%Hskip%Hmember).
  destruct (subscript pj "name") as [? [name| |]];
    destruct (subscript pj "version") as [? [version| |]]; simpl;
    try (by intros ?%Hskip%Hmember).
  case_bool_decide; simpl; [by intros ?%Hskip%Hmember|apply Hcreated].
Qed.

(** X1.  A JSON file is archived only when it is valid: a member named
    package.json, config.json or command.json holds a text that loads as JSON
    and has no violation of the schema of that name, whether the run ends
    well or not. *)
Theorem archived_json_is_valid dir out cwd tmp src (fs : gmap string string)
    name data :
  name ∈ json_names →
  (name, data) ∈ zip_members (_bundle U dir out cwd tmp src fs).2.1 →
  valid_json U name data.
Proof.
  intros Hname Hin%bundle_members_in_walk.
  apply bundle_walk_members in Hin. simpl in Hin.
  unfold json_names in Hname. rewrite !elem_of_cons, elem_of_nil in Hname.
  destruct Hin as [[_ Hvalid]|[Heq|[[Heq _]|[[f Heq]|[(f & _ & Heq & _)|
                  (f & Heq & _)]]]]]; [done|..];
    destruct Hname as [->|[->|[->|[]]]]; vm_compute in Heq; discriminate Heq.
Qed.

(** X2.  An image is archived only when it is a valid PNG: every member
    stored under images/ holds bytes that passed the validation. *)
Theorem archived_images_are_png dir out cwd tmp src (fs : gmap string string)
    arcname data :
  has_prefix "images/" arcname = true →
  (arcname, data) ∈ zip_members (_bundle U dir out cwd tmp src fs).2.1 →
  is_png U data = true.
Proof.
  intros Hprefix Hin%bundle_members_in_walk.
  apply bundle_walk_members in Hin. simpl in Hin.
  destruct Hin as [[Hname _]|[->|[[-> _]|[[f ->]|[(f & _ & _ & Hpng)|
                  (f & _ & Hpng)]]]]]; try done.
  unfold json_names in Hname. rewrite !elem_of_cons, elem_of_nil in Hname.
  by destruct Hname as [->|[->|[->|[]]]].
Qed.

(** X3.  Nothing outside the manifest reaches the archive: the name of every
    member is one of the four top-level files (marathon.json.mustache with a
    closing slash when it is a directory), an icon under images/, or lies
    under assets/uris/ or images/screenshots/. *)
Theorem archive_members_from_manifest dir out cwd tmp src
    (fs : gmap string string) arcname data :
  (arcname, data) ∈ zip_members (_bundle U dir out cwd tmp src fs).2.1 →
  manifest_member arcname = true.
Proof.
  intros Hin%bundle_members_in_walk.
  apply bundle_walk_members in Hin. simpl in Hin. unfold manifest_member.
  rewrite !orb_true_iff, !bool_decide_eq_true.
  destruct Hin as [[Hname _]|[->|[[-> _]|[[f ->]|[(f & Hicon & -> & _)|
                  (f & -> & _)]]]]].
  - do 3 left. unfold json_names in Hname.
    rewrite !elem_of_cons, elem_of_nil in *. tauto.
  - do 3 left. rewrite !elem_of_cons. tauto.
  - do 3 left. rewrite !elem_of_cons. tauto.
  - do 2 left. right. reflexivity.
  - left. right. unfold icon_names in Hicon.
    rewrite !elem_of_cons, elem_of_nil in Hicon.
    destruct Hicon as [->|[->|[->|[]]]]; rewrite !elem_of_cons; tauto.
  - right. reflexivity.
Qed.

End ArchiveContents.


(** ** Archive builder: the digest and the name *)

Lemma read_chunks_chunks_of fuel data :
  read_chunks fuel data = chunks_of 4096 fuel data.
Proof. reflexivity. Qed.

Lemma substring_all s : String.substring 0 (String.length s) s = s.
Proof. induction s as [|c s IH]; simpl; [done|]. by rewrite IH. Qed.

Lemma substring_split n s :
  String.substring 0 n s +:+ String.substring n (String.length s - n) s = s.
Proof.
  revert s. induction n as [|n IH]; intros s.
  - rewrite Nat.sub_0_r, substring_all. by destruct s.
  - destruct s as [|c s]; [done|]. simpl String.length. simpl String.substring.
    change (String c ?a +:+ ?b) with (String c (a +:+ b)).
    by rewrite IH.
Qed.

Lemma substring_take_length n s :
  String.length (String.substring 0 n s) = n `min` String.length s.
Proof.
  revert s. induction n as [|n IH]; intros [|c s]; simpl; try done.
  by rewrite IH.
Qed.

Lemma substring_drop_length n s :
  String.length (String.substring n (String.length s - n) s)
  = String.length s - n.
Proof.
  revert s. induction n as [|n IH]; intros s.
  - by rewrite Nat.sub_0_r, substring_all.
  - destruct s as [|c s]; [done|]. simpl. apply IH.
Qed.

Lemma chunks_of_spec n fuel data :
  0 < n → String.length data < fuel →
  foldr String.append "" (chunks_of n fuel data) = data ∧
  Forall (λ chunk, 0 < String.length chunk ≤ n) (chunks_of n fuel data).
Proof.
  intros Hn. revert data. induction fuel as [|fuel IH]; intros data Hfuel;
    [lia|].
  simpl.
  pose proof (substring_split n data) as Hsplit.
  pose proof (substring_take_length n data) as Htake.
  pose proof (substring_drop_length n data) as Hdrop.
  destruct (String.substring 0 n data) as [|c chunk] eqn:Hchunk.
  - simpl in Htake. assert (String.length data = 0) as Hzero by lia.
    destruct data; [done|discriminate Hzero].
  - simpl in Htake.
    destruct (IH (String.substring n (String.length data - n) data))
      as [Hcat Hall]; [lia|].
    split.
    + simpl. by rewrite Hcat.
    + constructor; [simpl; lia|done].
Qed.

(** X5.  [_hashfile] reads the whole file: the blocks it feeds to the hasher
    are not empty, hold at most 4096 bytes each, and put end to end give the
    file's contents. *)
Theorem read_chunks_reassemble data :
  let chunks := read_chunks (S (String.length data)) data in
  foldr String.append "" chunks = data ∧
  Forall (λ chunk, 0 < String.length chunk ≤ 4096) chunks.
Proof.
  cbv zeta. rewrite read_chunks_chunks_of. apply chunks_of_spec; lia.
Qed.

Section Digest.
Context (U : Util).

Lemma foldl_update_append h chunks :
  (∀ h, sha256_update U h "" = h) →
  (∀ h a b, sha256_update U h (a +:+ b)
            = sha256_update U (sha256_update U h a) b) →
  foldl (sha256_update U) h chunks
  = sha256_update U h (foldr String.append "" chunks).
Proof.
  intros Hempty Happ. revert h.
  induction chunks as [|c cs IH]; intros h; simpl; [by rewrite Hempty|].
  by rewrite IH, Happ.
Qed.

(** X6.  For a hasher that works incrementally (feeding two pieces one after
    the other is feeding their concatenation, and feeding nothing changes
    nothing), the digest that [_hashfile] computes block by block is the
    digest of the whole contents, and the file system is not changed. *)
Theorem hashfile_digest_of_whole_file filename data (fs : gmap string string) :
  (∀ h, sha256_update U h "" = h) →
  (∀ h a b, sha256_update U h (a +:+ b)
            = sha256_update U (sha256_update U h a) b) →
  fs !! filename = Some data →
  _hashfile U filename fs
  = (fs, ret (sha256_hexdigest U (sha256_update U (sha256_new U) data))).
Proof.
  intros Hempty Happ Hfile.
  unfold _hashfile, fs_bind, fs_read, lift. rewrite Hfile. simpl.
  unfold hash_data, hash_chunks.
  rewrite (foldl_update_append _ _ Hempty Happ), read_chunks_chunks_of.
  by destruct (chunks_of_spec 4096 (S (String.length data)) data) as [-> _];
    [lia..|].
Qed.

(** X4.  The name of the archive is made from its content: a run that returns
    has put the archive at [<output directory>/<name>-<version>-<digest>.zip],
    where name and version come from the validated package.json and the
    digest is that of the very bytes stored there; the path was free before,
    and the last thing published is the message that names it. *)
Theorem bundle_name_is_content_addressed dir out cwd tmp src
    (fs fs' : gmap string string) t z :
  fs !! tmp = None →
  _bundle U dir out cwd tmp src fs = (fs', (t, Return z)) →
  ∃ doc name version archive,
    result (_validate_json_file U (path_join dir "package.json")
              (entry (children src) "package.json")) = Return doc ∧
    subscript doc "name" = ret name ∧
    subscript doc "version" = ret version ∧
    archive = zip_bytes U (zip_members t) ∧
    let zip_file_name :=
      path_join (default cwd out)
        (format_value U name +:+ "-" +:+ format_value U version +:+ "-"
           +:+ hash_data U archive +:+ ".zip") in
    fs !! zip_file_name = None ∧
    fs' = <[zip_file_name := archive]> fs ∧
    last t = Some (created_message zip_file_name) ∧
    z = 0%Z.
Proof.
  intros Htmp. rewrite bundle_run. cbv zeta.
  destruct (negb _); [done|].
  pose proof (validate_json_file_members U (path_join dir "package.json")
                (entry (children src) "package.json")) as Hm.
  destruct (_validate_json_file _ _ _) as [t0 [pj|e0|]]; [|done..].
  destruct (bundle_walk _ _ _) as [tw [[]|ew|]]; [|done..].
  destruct (subscript_pure pj "name") as (o1 & Hname & _).
  destruct (subscript_pure pj "version") as (o2 & Hversion & _).
  rewrite Hname, Hversion.
  destruct o1 as [name| |]; destruct o2 as [version| |]; try done.
  case_bool_decide as Htaken; [done|]. intros [= <- <- <-].
  set (archive := zip_bytes U (zip_members tw)) in *.
  assert (zip_members (t0 ++ tw ++
            [created_message
               (zip_file_name_of U (default cwd out) name version
                  (PStr (hash_data U archive)))]) = zip_members tw) as Hmem.
  { unfold zip_members in *. rewrite !omap_app. simpl in Hm. rewrite Hm.
    simpl. by rewrite app_nil_r. }
  exists pj, name, version, archive. rewrite Hmem.
  split_and!; try done.
  - apply eq_None_not_Some. intros Hs. apply Htaken.
    destruct (decide (tmp = zip_file_name_of U (default cwd out) name version
                              (PStr (hash_data U archive)))) as [<-|Hne].
    + rewrite lookup_insert_eq. eauto.
    + by rewrite lookup_insert_ne.
  - rewrite delete_insert_ne, delete_id; [done..|].
    intros ->. apply Htaken. rewrite lookup_insert_eq. eauto.
  - by rewrite app_assoc, last_snoc.
Qed.
End Digest.


(** ** Install: prompts, order and failures *)

(** X7.  The first line that is an answer decides.  Every line before it that
    is neither yes nor no is reported and the question is asked again, and
    the lines after it are not read. *)
Theorem confirm_loop_first_answer prompt (bad : list string) good rest b :
  Forall (λ line, answer line = None) bad →
  answer good = Some b →
  confirm_loop prompt (bad ++ good :: rest)
  = (flat_map (asked_again prompt) bad ++ [StdoutWrite (prompt +:+ " [yes/no] ")],
     Return b).
Proof.
  intros Hbad Hgood. induction Hbad as [|line bad Hline _ IH]; simpl.
  - unfold answer in Hgood.
    destruct (orb _ _); [by injection Hgood as <-|].
    destruct (orb _ _); [by injection Hgood as <-|done].
  - unfold answer in Hline.
    destruct (orb _ _); [done|]. destruct (orb _ _); [done|].
    by rewrite IH.
Qed.

(** X8.  When the input holds no answer the confirmation never returns: at
    the end of input [readline] gives the empty string, which is not a valid
    response, again and again. *)
Theorem confirm_loop_no_answer prompt (stdin : list string) :
  Forall (λ line, answer line = None) stdin →
  result (confirm_loop prompt stdin) = Hang.
Proof.
  induction 1 as [|line stdin Hline _ IH]; simpl; [done|].
  unfold answer in Hline.
  destruct (orb _ _); [done|]. destruct (orb _ _); [done|].
  destruct (confirm_loop prompt stdin) as [t o]. simpl in *. by subst.
Qed.

Section InstallPrompts.
Context (C : Cluster).

Lemma install_marathon_step_quiet pkg rev options v app_id app :
  free is_prompt (trace (install_marathon_step C pkg rev options v app_id app))
  ∧ no_hang (install_marathon_step C pkg rev options v app_id app).
Proof.
  unfold install_marathon_step, no_hang. destruct (_ && _); [|split; [apply free_nil|done]].
  destruct (install_app C pkg rev options app_id); simpl;
    (split; [solve_free|done]).
Qed.

Lemma install_subcommand_step_quiet name pkg rev options v cli :
  free is_prompt
    (trace (install_subcommand_step C name pkg rev options v cli))
  ∧ no_hang (install_subcommand_step C name pkg rev options v cli).
Proof.
  unfold install_subcommand_step, no_hang.
  destruct (_ && _); [|split; [apply free_nil|done]].
  destruct (subcommand_install C pkg rev options); simpl;
    [split; [solve_free|done]|].
  destruct (get_package_commands C name); simpl; (split; [solve_free|done]).
Qed.

Lemma show_post_install_notes_no_hang pkg_json :
  no_hang (show_post_install_notes pkg_json).
Proof. unfold show_post_install_notes, no_hang. by destruct (truthy _). Qed.

Lemma confirm_pre_install_yes pkg_json stdin :
  free is_prompt (trace (confirm_pre_install pkg_json true stdin))
  ∧ no_hang (confirm_pre_install pkg_json true stdin).
Proof.
  unfold confirm_pre_install, no_hang.
  destruct (truthy _); simpl; (split; [solve_free|done]).
Qed.

Lemma user_options_no_hang options_path :
  no_hang (_user_options C options_path).
Proof.
  unfold no_hang. destruct options_path as [path|]; [|done]. simpl.
  by destruct (read_json_file C path).
Qed.

(** X9.  With --yes install writes no prompt, does not depend on what is on
    standard input, and cannot be left waiting for an answer. *)
Theorem install_yes_never_prompts name version options_path app_id cli app
    stdin stdin' :
  let run := _install C name version options_path app_id cli app true stdin in
  free is_prompt (trace run) ∧
  result run ≠ Hang ∧
  run = _install C name version options_path app_id cli app true stdin'.
Proof.
  intros run. subst run. split_and!; [| |reflexivity].
  - unfold _install.
    apply free_bind; [solve_free|]. intros _.
    destruct (resolve_package C name) as [pkg|]; [|apply free_nil].
    destruct (latest_package_revision pkg version) as [rev|]; [|apply free_nil].
    apply free_bind; [rewrite user_options_pure; apply free_nil|]. intros uo.
    apply free_bind; [apply confirm_pre_install_yes|]. intros proceed.
    destruct (negb proceed); [apply free_nil|].
    apply free_bind; [destruct (package_options C rev uo); apply free_nil|].
    intros options.
    apply free_bind; [apply install_marathon_step_quiet|]. intros _.
    apply free_bind; [apply install_subcommand_step_quiet|]. intros _.
    apply free_bind; [by apply show_post_install_notes_free|]. intros _.
    apply free_nil.
  - unfold _install. apply no_hang_bind; [done|]. intros _.
    destruct (resolve_package C name) as [pkg|]; [|done].
    destruct (latest_package_revision pkg version) as [rev|]; [|done].
    apply no_hang_bind; [apply user_options_no_hang|]. intros uo.
    apply no_hang_bind; [apply confirm_pre_install_yes|]. intros proceed.
    destruct (negb proceed); [done|].
    apply no_hang_bind; [by destruct (package_options C rev uo)|].
    intros options.
    apply no_hang_bind; [apply install_marathon_step_quiet|]. intros _.
    apply no_hang_bind; [apply install_subcommand_step_quiet|]. intros _.
    apply no_hang_bind; [apply show_post_install_notes_no_hang|]. by intros _.
Qed.
End InstallPrompts.

Lemma scheduler_first_quiet t :
  free is_subcommand_install t → scheduler_first t.
Proof.
  intros Ht. exists t, []. rewrite app_nil_r. split_and!; [done..|].
  apply free_nil.
Qed.

Lemma scheduler_first_cons e t :
  is_subcommand_install e = false → scheduler_first t →
  scheduler_first (e :: t).
Proof.
  intros He (a & b & -> & Ha & Hb). exists (e :: a), b.
  split_and!; [done| |done]. by apply free_cons.
Qed.

Lemma scheduler_first_app t1 t2 :
  free is_subcommand_install t1 → scheduler_first t2 →
  scheduler_first (t1 ++ t2).
Proof.
  intros H1 (a & b & -> & Ha & Hb). exists (t1 ++ a), b.
  rewrite app_assoc. split_and!; [done| |done]. by apply free_app.
Qed.

Lemma scheduler_first_bind {A B} (m : M A) (k : A → M B) :
  free is_subcommand_install (trace m) →
  (∀ a, scheduler_first (trace (k a))) →
  scheduler_first (trace (bind m k)).
Proof.
  destruct m as [t [a| |]]; simpl; intros Hm Hk;
    try by apply scheduler_first_quiet.
  specialize (Hk a). destruct (k a) as [t' o'].
  by apply scheduler_first_app.
Qed.

Lemma scheduler_first_spec t :
  scheduler_first t →
  ∀ t1 e t2, t = t1 ++ e :: t2 → is_subcommand_install e = true →
             free is_app_install t2.
Proof.
  intros (a & b & -> & Ha & Hb) t1 e t2 Heq He.
  apply app_eq_inv in Heq as [(k & -> & Hk)|(k & -> & Hk)].
  - destruct k as [|x k]; simpl in Hk.
    + subst b. intros y Hy. apply Hb. by right.
    + injection Hk as Hx Ht2. subst x.
      rewrite (Ha e) in He; [done|]. apply elem_of_app. right. by left.
  - intros y Hy. apply Hb. rewrite Hk. apply elem_of_app. right. by right.
Qed.

Section InstallOrder.
Context (C : Cluster).

Lemma install_steps_scheduler_first name pkg rev options v app_id cli app :
  scheduler_first
    (trace (install_marathon_step C pkg rev options v app_id app;;;
            install_subcommand_step C name pkg rev options v cli;;;
            show_post_install_notes (rev_package_json rev);;;
            ret 0%Z)).
Proof.
  apply scheduler_first_bind; [apply install_marathon_step_free|]. intros _.
  exists [].
  eexists. split_and!; [done|apply free_nil|].
  apply free_bind; [apply install_subcommand_step_free|]. intros _.
  apply free_bind; [by apply show_post_install_notes_free|]. intros _.
  apply free_nil.
Qed.

(** X10.  The scheduler comes first: in every run of install, nothing that
    follows the installation of a subcommand is a call to the scheduler. *)
Theorem install_scheduler_before_subcommand name version options_path app_id
    cli app yes stdin :
  let run := _install C name version options_path app_id cli app yes stdin in
  ∀ t1 e t2,
    trace run = t1 ++ e :: t2 → is_subcommand_install e = true →
    free is_app_install t2.
Proof.
  intros run. apply scheduler_first_spec. subst run. unfold _install.
  apply scheduler_first_bind; [by apply free_cons; [|apply free_nil]|].
  intros _.
  destruct (resolve_package C name) as [pkg|];
    [|apply scheduler_first_quiet, free_nil].
  destruct (latest_package_revision pkg version) as [rev|];
    [|apply scheduler_first_quiet, free_nil].
  apply scheduler_first_bind; [rewrite user_options_pure; apply free_nil|].
  intros uo.
  apply scheduler_first_bind; [by apply confirm_pre_install_free|].
  intros proceed.
  destruct (negb proceed); [apply scheduler_first_quiet, free_nil|].
  apply scheduler_first_bind;
    [destruct (package_options C rev uo); apply free_nil|].
  intros options. apply install_steps_scheduler_first.
Qed.

(** X11.  When the scheduler refuses the app, install ends with that exception
    and the subcommand is not installed. *)
Theorem install_scheduler_failure_stops name version options_path app_id
    cli app yes stdin pkg rev uo options e :
  resolve_package C name = Some pkg →
  latest_package_revision pkg version = Some rev →
  _user_options C options_path = ret uo →
  result (confirm_pre_install (rev_package_json rev) yes stdin) = Return true →
  package_options C rev uo = inr options →
  wants_app cli app && has_marathon_definition rev = true →
  install_app C pkg rev options app_id = Some e →
  let run := _install C name version options_path app_id cli app yes stdin in
  result run = Raise e ∧ free is_subcommand_install (trace run).
Proof.
  intros Hres Hrev Huo Hgo Hopt Hstep Hfail run. subst run.
  rewrite (install_run C _ _ _ _ _ _ _ _ pkg rev uo options) by done.
  destruct (install_marathon_step_run C pkg rev options
              (assoc_get (package_revisions_map pkg) (rev_id rev))
              app_id (wants_app cli app) Hstep) as [_ Hresult].
  rewrite Hfail in Hresult.
  rewrite (bind_raise _ _ _ Hresult). simpl. split; [done|].
  apply free_cons; [done|]. apply free_app.
  - by apply confirm_pre_install_free.
  - apply install_marathon_step_free.
Qed.

(** X12.  Options that cannot be used stop install before any target is
    touched: an options file that cannot be read ends install right after the
    package is resolved, before any note is shown; options that fail their
    validation end it without a call to the scheduler or to the subcommand
    store. *)
Theorem install_bad_options_touch_nothing name version options_path app_id
    cli app yes stdin pkg rev :
  resolve_package C name = Some pkg →
  latest_package_revision pkg version = Some rev →
  let run := _install C name version options_path app_id cli app yes stdin in
  (∀ e, result (_user_options C options_path) = Raise e →
        run = ([ResolvePackage name], Raise e)) ∧
  (∀ uo e, _user_options C options_path = ret uo →
           result (confirm_pre_install (rev_package_json rev) yes stdin)
             = Return true →
           package_options C rev uo = inl e →
           result run = Raise e ∧ free is_mutation (trace run)).
Proof.
  intros Hres Hrev run. subst run. split.
  - intros e He. unfold _install. rewrite Hres, Hrev.
    pose proof (user_options_pure C options_path) as Hpure.
    destruct (_user_options C options_path) as [t o]. simpl in *. by subst.
  - intros uo e Huo Hgo Hopt. unfold _install.
    rewrite Hres, Hrev, Huo, bind_ret_l.
    pose proof (confirm_pre_install_free is_mutation (rev_package_json rev)
                  yes stdin (λ _, eq_refl) (λ _, eq_refl)) as Hq.
    destruct (confirm_pre_install _ _ _) as [tc oc]. simpl in Hgo, Hq.
    subst oc. rewrite Hopt. simpl. split; [done|].
    apply free_cons; [done|]. by rewrite app_nil_r.
Qed.
End InstallOrder.

Lemma slashless_append a b :
  slashless a = true → slashless b = true → slashless (a +:+ b) = true.
Proof.
  intros Ha Hb. induction a as [|c a IH]; [done|].
  change (String c a +:+ b) with (String c (a +:+ b)). simpl in *.
  apply andb_true_iff in Ha as [-> Ha]. by rewrite IH.
Qed.

Lemma replace_first_hyphen a b :
  hyphenless a = true →
  replace_first "-" " " (a +:+ "-" +:+ b) = a +:+ " " +:+ b.
Proof.
  intros Ha. induction a as [|c a IH]; [done|].
  change (String c a +:+ ?x) with (String c (a +:+ x)). simpl in *.
  apply andb_true_iff in Ha as [Hc Ha]. apply negb_true_iff in Hc.
  by rewrite Hc, IH.
Qed.

Lemma shown_executable dir command :
  slashless command.1 = true → hyphenless command.1 = true →
  slashless command.2 = true →
  replace_first "-" " " (basename (executable_path dir command))
  = shown_command command.
Proof.
  intros H1 H2 H3. unfold executable_path, basename.
  rewrite basename_from_sep.
  - by apply replace_first_hyphen.
  - apply slashless_append; [done|]. by apply (slashless_append "-").
Qed.

Section NewCommands.
Context (C : Cluster).

(** X13.  After the subcommand is installed, install announces the new
    commands under the names the operator types: of the executable's file
    name only the first hyphen becomes a space ([dcos-foo-bar] is shown as
    [dcos foo-bar]); the word is "commands" when there are several, and
    nothing is announced when there is none. *)
Theorem new_commands_message name pkg rev options v dir
    (commands : list (string * string)) :
  has_command_definition rev = true →
  subcommand_install C pkg rev options = None →
  Forall (λ c, slashless c.1 = true ∧ hyphenless c.1 = true
               ∧ slashless c.2 = true) commands →
  get_package_commands C name = executable_path dir <$> commands →
  trace (install_subcommand_step C name pkg rev options v true)
  = [Publish (PStr ("Installing CLI subcommand for package ["
                      +:+ Package.name pkg +:+ "] version ["
                      +:+ format_opt v +:+ "]"));
     InstallSubcommand (Package.name pkg) (rev_id rev)]
    ++ match commands with
       | [] => []
       | _ :: _ =>
           [Publish (PStr ("New command"
                             +:+ (if bool_decide (1 < length commands)
                                  then "s" else "")
                             +:+ " available: "
                             +:+ str_join ", " (shown_command <$> commands)))]
       end.
Proof.
  intros Hdecl Hok Hall Hpaths. unfold install_subcommand_step.
  rewrite Hdecl, Hok, Hpaths. simpl.
  assert ((λ p, replace_first "-" " " (basename p)) <$>
            (executable_path dir <$> commands)
          = shown_command <$> commands) as Hshown.
  { rewrite <-list_fmap_compose. apply Forall_fmap_ext_1.
    eapply Forall_impl; [exact Hall|]. intros c (H1 & H2 & H3). simpl.
    by apply shown_executable. }
  destruct commands as [|c cs]; [done|].
  rewrite Hshown. simpl. by rewrite !length_fmap.
Qed.
End NewCommands.

(** ** Describe, list and search *)

Lemma subscript_free kind v key : free kind (trace (subscript v key)).
Proof. destruct (subscript_pure v key) as (o & -> & _). apply free_nil. Qed.

Lemma of_sum_free {A} kind (r : exn + A) : free kind (trace (of_sum r)).
Proof. destruct r; apply free_nil. Qed.

Lemma join_value_free kind sep v : free kind (trace (join_value sep v)).
Proof.
  destruct v; try apply free_nil. simpl. destruct (forallb _ l); apply free_nil.
Qed.

Lemma join_value_strings sep (l : list string) :
  join_value sep (PList (PStr <$> l)) = ret (str_join sep l).
Proof.
  unfold join_value.
  match goal with
  | |- context [forallb ?f ?xs] => assert (forallb f xs = true) as ->
  end.
  { induction l as [|s l IH]; [done|]. exact IH. }
  match goal with
  | |- context [omap ?f ?xs] => assert (omap f xs = l) as ->; [|done]
  end.
  induction l as [|s l IH]; [done|].
  change (s :: omap (λ x, match x with PStr s => Some s | _ => None end)
                 (PStr <$> l) = s :: l).
  by f_equal.
Qed.

Lemma subscript_no_hang v key : no_hang (subscript v key).
Proof. destruct (subscript_pure v key) as (o & -> & Ho). exact Ho. Qed.

Lemma of_sum_no_hang {A} (r : exn + A) : no_hang (of_sum r).
Proof. by destruct r. Qed.

Lemma join_value_no_hang sep v : no_hang (join_value sep v).
Proof. destruct v; try done. simpl. by destruct (forallb _ l). Qed.

Section DescribeFacts.
Context (C : Cluster).

Lemma revision_file_free {A} kind rev filename (content : option A) :
  free kind (trace (revision_file C rev filename content)).
Proof. destruct content; apply free_nil. Qed.

Lemma revision_file_no_hang {A} rev filename (content : option A) :
  no_hang (revision_file C rev filename content).
Proof. by destruct content. Qed.

Lemma template_output_free kind rev filename (content : option string)
    (render : bool) options :
  free kind
    (trace (if render
            then template <- revision_file C rev filename content;;
                 of_sum (render_template C template options)
            else output <- revision_file C rev filename content;;
                 ret (PStr (strip_newline output)))).
Proof.
  destruct render; (apply free_bind; [apply revision_file_free|]); intros t;
    [apply of_sum_free|apply free_nil].
Qed.

Lemma template_output_no_hang rev filename (content : option string)
    (render : bool) options :
  no_hang
    (if render
     then template <- revision_file C rev filename content;;
          of_sum (render_template C template options)
     else output <- revision_file C rev filename content;;
          ret (PStr (strip_newline output))).
Proof.
  destruct render; (apply no_hang_bind; [apply revision_file_no_hang|]);
    intros t; [apply of_sum_no_hang|done].
Qed.

(** X14.  Describe only reads: whatever its arguments it calls neither the
    scheduler nor the subcommand store, writes no prompt, and ends. *)
Theorem describe_is_read_only name app cli options_path render
    package_versions package_version config :
  let run :=
    _describe C name app cli options_path render package_versions
      package_version config in
  free is_mutation (trace run) ∧ free is_prompt (trace run) ∧
  result run ≠ Hang.
Proof.
  intros run. subst run.
  assert (∀ kind, (∀ v, kind (Publish v) = false) →
                  (∀ n, kind (ResolvePackage n) = false) →
    free kind (trace (_describe C name app cli options_path render
                        package_versions package_version config))) as Hfree.
  { intros kind Hp Hr. unfold _describe.
    destruct (_ && _); [apply free_nil|].
    apply free_bind; [by apply free_cons; [|apply free_nil]|]. intros _.
    destruct (resolve_package C name) as [pkg|]; [|apply free_nil].
    destruct (latest_package_revision pkg package_version) as [rev|];
      [|apply free_nil].
    apply free_bind.
    { destruct package_version; [apply free_nil|].
      destruct (_ !! "version"); apply free_nil. }
    intros pkg_json. apply free_bind; [|intros; apply free_nil].
    destruct package_versions.
    { apply free_bind; [apply subscript_free|]. intros versions.
      apply free_bind; [apply join_value_free|]. intros text.
      by apply free_cons; [|apply free_nil]. }
    destruct (_ || _); [|by apply free_cons; [|apply free_nil]].
    apply free_bind; [rewrite user_options_pure; apply free_nil|]. intros uo.
    apply free_bind; [apply of_sum_free|]. intros options.
    apply free_bind.
    { destruct cli; [|apply free_nil].
      apply free_bind; [apply template_output_free|].
      intros out. by apply free_cons; [|apply free_nil]. }
    intros _. apply free_bind.
    { destruct app; [|apply free_nil].
      apply free_bind; [apply template_output_free|].
      intros out. by apply free_cons; [|apply free_nil]. }
    intros _. destruct config; [|apply free_nil].
    apply free_bind; [apply revision_file_free|]. intros out.
    by apply free_cons; [|apply free_nil]. }
  split_and!; [by apply Hfree|by apply Hfree|].
  unfold _describe.
  destruct (_ && _); [done|].
  apply no_hang_bind; [done|]. intros _.
  destruct (resolve_package C name) as [pkg|]; [|done].
  destruct (latest_package_revision pkg package_version) as [rev|]; [|done].
  apply no_hang_bind.
  { destruct package_version; [done|]. by destruct (_ !! "version"). }
  intros pkg_json. apply no_hang_bind; [|done].
  destruct package_versions.
  { apply no_hang_bind; [apply subscript_no_hang|]. intros versions.
    apply no_hang_bind; [apply join_value_no_hang|]. done. }
  destruct (_ || _); [|done].
  apply no_hang_bind; [apply user_options_no_hang|]. intros uo.
  apply no_hang_bind; [apply of_sum_no_hang|]. intros options.
  apply no_hang_bind.
  { destruct cli; [|done].
    apply no_hang_bind; [|done]. apply template_output_no_hang. }
  intros _. apply no_hang_bind.
  { destruct app; [|done].
    apply no_hang_bind; [|done]. apply template_output_no_hang. }
  intros _. destruct config; [|done].
  apply no_hang_bind; [apply revision_file_no_hang|done].
Qed.

(** X15.  [describe --package-versions] prints the values of the package's
    revision map, the versions, in the order of the map and one per line,
    and returns 0. *)
Theorem describe_package_versions_lists name pkg rev :
  resolve_package C name = Some pkg →
  latest_package_revision pkg None = Some rev →
  is_Some (rev_package_json rev !! "version") →
  _describe C name false false None false true None false
  = ([ResolvePackage name;
      Publish (PStr (str_join nl (package_revisions_map pkg).*2))],
     Return 0%Z).
Proof.
  intros Hres Hlatest [v Hv]. unfold _describe.
  rewrite Hres, Hlatest. simpl. rewrite Hv.
  rewrite bind_ret_l. unfold subscript. rewrite lookup_insert_eq.
  rewrite bind_ret_l.
  by rewrite join_value_strings.
Qed.
End DescribeFacts.

Lemma any_packages_existsb results :
  Forall (λ r : gmap string pyval, is_Some (r !! "packages")) results →
  any_packages results = ret (existsb has_packages results).
Proof.
  induction 1 as [|r rs [v Hv] _ IH]; [done|].
  simpl. unfold has_packages, dict_get. rewrite Hv. simpl.
  destruct (truthy v); [done|]. by rewrite IH.
Qed.

(** X18.  [package search] fails with "No packages found." exactly when --json
    is not set and no source lists a package; otherwise it publishes the
    entries of all sources, also of those that list nothing.  A missing
    query is the empty query. *)
Theorem search_no_packages search json_ query results :
  search (if truthy_str query then default "" query else "") = inr results →
  Forall (λ r : gmap string pyval, is_Some (r !! "packages")) results →
  _search search json_ query
  = if existsb has_packages results || json_
    then ([PublishTable (PDict <$> results) json_], Return 0%Z)
    else raise (DCOSException "No packages found.").
Proof.
  intros Hsearch Hkeys. unfold _search. rewrite Hsearch. simpl.
  rewrite (any_packages_existsb _ Hkeys). simpl.
  by destruct (existsb has_packages results || json_).
Qed.

Lemma list_results_by_name installed package_name :
  (is_Some package_name →
   Forall (λ r : gmap string pyval, is_Some (r !! "name")) installed) →
  list_results installed None package_name
  = ret (PDict <$> List.filter (name_matches package_name) installed).
Proof.
  destruct package_name as [name|]; intros Hnames.
  - specialize (Hnames (ex_intro _ name eq_refl)).
    induction Hnames as [|r rs [v Hv] _ IH]; [done|].
    simpl. rewrite IH, Hv. simpl.
    destruct v; simpl; try done. by destruct (String.eqb s name).
  - clear Hnames. induction installed as [|r rs IH]; [done|].
    simpl. by rewrite IH.
Qed.

(** X16.  Without an app id, [package list] shows the records whose name is
    the one asked for (all of them when no name is given), whole and in the
    order received; when none is left it fails with the "no installed
    packages" message, unless --json is set, which prints the empty table. *)
Theorem list_by_name installed json_ package_name :
  (is_Some package_name →
   Forall (λ r : gmap string pyval, is_Some (r !! "name")) installed) →
  _list installed json_ None package_name
  = match List.filter (name_matches package_name) installed, json_ with
    | [], false =>
        raise (DCOSException
                 ("There are currently no installed packages. "
                    +:+ "Please use `dcos package install` to install a package."))
    | rows, _ => ([PublishTable (PDict <$> rows) json_], Return 0%Z)
    end.
Proof.
  intros Hnames. unfold _list. rewrite list_results_by_name by done.
  rewrite bind_ret_l.
  by destruct (List.filter _ installed), json_.
Qed.

Lemma list_results_by_app installed app_id :
  app_id ≠ "" →
  Forall (λ r : gmap string pyval, ∃ l, r !! "apps" = Some (PList l)) installed →
  list_results installed (Some app_id) None
  = ret (only_that_app app_id <$> List.filter (runs_app app_id) installed).
Proof.
  intros Hne. induction 1 as [|r rs [l Hl] _ IH]; [done|].
  simpl. rewrite IH. unfold _matches_app_id, dict_get, runs_app, apps_of.
  rewrite Hl. simpl.
  destruct (existsb (is_str app_id) l) eqn:Hin; simpl; [|done].
  assert (String.eqb app_id "" = false) as -> by by apply String.eqb_neq.
  simpl. unfold only_that_app, apps_of. by rewrite Hl.
Qed.

(** X17.  With an app id, [package list] shows the records that run that app
    and, in each of them, that app only; the other apps of the record are
    left out. *)
Theorem list_by_app_id installed json_ app_id :
  app_id ≠ "" →
  Forall (λ r : gmap string pyval, ∃ l, r !! "apps" = Some (PList l)) installed →
  _list installed json_ (Some app_id) None
  = match List.filter (runs_app app_id) installed, json_ with
    | [], false =>
        raise (DCOSException
                 ("There are currently no installed packages. "
                    +:+ "Please use `dcos package install` to install a package."))
    | rows, _ =>
        ([PublishTable (only_that_app app_id <$> rows) json_], Return 0%Z)
    end.
Proof.
  intros Hne Happs. unfold _list. rewrite list_results_by_app by done.
  rewrite bind_ret_l.
  by destruct (List.filter _ installed), json_.
Qed.

Lemma list_results_missing_apps pkg_info before after app_id :
  pkg_info !! "apps" = None →
  Forall (λ r : gmap string pyval, ∃ l, r !! "apps" = Some (PList l)) before →
  list_results (before ++ pkg_info :: after) (Some app_id) None
  = raise type_error_none.
Proof.
  intros Hnone Hbefore. induction Hbefore as [|r rs [l Hl] _ IH].
  - simpl. unfold _matches_app_id, dict_get. by rewrite Hnone.
  - simpl. rewrite IH. unfold _matches_app_id, dict_get. rewrite Hl. simpl.
    destruct (existsb _ l); simpl; [|done].
    destruct (negb _); simpl; rewrite ?Hl; done.
Qed.

(** [main] never lets a [DCOSException] out. *)
Lemma main_exit_status (m : M Z) :
  (∀ msg, result m = Raise (DCOSException msg) →
          main m = ((Inner <$> trace m) ++ [PublishException (DCOSException msg)],
                    Return 1%Z)) ∧
  (∀ msg, (main m).2 ≠ Raise (DCOSException msg)) ∧
  ((∀ msg, result m ≠ Raise (DCOSException msg)) →
   main m = (Inner <$> trace m, result m)).
Proof.
  destruct m as [t [z|[msg| | |]|]]; simpl; split_and!; try done.
  - by intros msg' [= ->].
  - intros H. by destruct (H msg).
Qed.

(** X19.  [main] turns only a [DCOSException] into the exit status 1: the
    [TypeError] that [package list --app-id=ID] raises on a record without
    apps passes through [main], with nothing published. *)
Theorem main_list_type_error_escapes pkg_info before after json_ app_id :
  pkg_info !! "apps" = None →
  Forall (λ r : gmap string pyval, ∃ l, r !! "apps" = Some (PList l)) before →
  main (_list (before ++ pkg_info :: after) json_ (Some app_id) None)
  = ([], Raise type_error_none).
Proof.
  intros Hnone Hbefore. unfold _list.
  by rewrite (list_results_missing_apps _ _ _ _ Hnone Hbefore).
Qed.

(** ** The launcher *)

Lemma lower_char_idempotent c : lower_char (lower_char c) = lower_char c.
Proof. destruct c as [[] [] [] [] [] [] [] []]; reflexivity. Qed.

Lemma lower_idempotent s : lower (lower s) = lower s.
Proof.
  induction s as [|c s IH]; [done|]. simpl.
  by rewrite lower_char_idempotent, IH.
Qed.

Section LauncherFacts.
Import Launcher.
Context (H : Host).

(** X20.  The log level is read without regard to case.  When it is a valid
    level the environment variable is set to its lower-case form and nothing
    is said; otherwise the environment is left as it was and one message is
    published. *)
Theorem log_level_is_case_insensitive log_level (environ : gmap string string) :
  _config_log_level_environ H log_level environ
  = _config_log_level_environ H (lower log_level) environ ∧
  match _config_log_level_environ H log_level environ with
  | (environ', said, true) =>
      said = [] ∧
      environ' = <[DCOS_LOG_LEVEL_ENV H := lower log_level]> environ ∧
      lower log_level ∈ VALID_LOG_LEVEL_VALUES H
  | (environ', said, false) =>
      environ' = environ ∧ said = [Say (unknown_log_level H (lower log_level))] ∧
      lower log_level ∉ VALID_LOG_LEVEL_VALUES H
  end.
Proof.
  unfold _config_log_level_environ. rewrite lower_idempotent.
  split; [done|]. by case_bool_decide.
Qed.

(** X21.  [set_ssl_info_env_vars] changes no variable but DCOS_SSL_VERIFY,
    keeps a value that is already set and not empty, and has the same effect
    done twice as done once. *)
Theorem set_ssl_info_is_idempotent config (environ : gmap string string) :
  let environ' := set_ssl_info_env_vars H config environ in
  set_ssl_info_env_vars H config environ' = environ' ∧
  (∀ value, environ !! DCOS_SSL_VERIFY_ENV H = Some value → value ≠ "" →
            environ' = environ) ∧
  (∀ key, key ≠ DCOS_SSL_VERIFY_ENV H → environ' !! key = environ !! key).
Proof.
  unfold set_ssl_info_env_vars.
  destruct (config !! "core.ssl_verify") as [value|]; simpl; [|done].
  destruct (truthy_str (environ !! DCOS_SSL_VERIFY_ENV H)) eqn:Hset; simpl.
  - by rewrite Hset.
  - rewrite lookup_insert_eq. split_and!.
    + destruct (truthy_str (Some _)); simpl; [done|].
      by rewrite insert_insert_eq.
    + intros v Hv Hne. rewrite Hv in Hset. simpl in Hset.
      by apply negb_false_iff, String.eqb_eq in Hset.
    + intros key Hkey. by rewrite lookup_insert_ne.
Qed.

(** X22.  An unknown log level ends the launcher at once: the status is 1,
    the one thing published is the message about the level, the environment
    is unchanged, and neither the login nor a subcommand is started. *)
Theorem main_bad_log_level args log_level (environ : gmap string string) :
  arg_log_level args = Some log_level →
  log_level ≠ "" →
  lower log_level ∉ VALID_LOG_LEVEL_VALUES H →
  main H args environ
  = (environ, ([Say (unknown_log_level H (lower log_level))], Return 1%Z)).
Proof.
  intros Hl Hne Hbad. unfold main, _main, _config_log_level_environ.
  rewrite Hl. apply String.eqb_neq in Hne. rewrite Hne.
  by rewrite bool_decide_false.
Qed.

End LauncherFacts.

(** ** The further properties at work in the small world *)

Ltac by_computation := apply (bool_decide_unpack _); vm_compute; exact I.

Lemma archived_json_is_valid_witness :
  valid_json Demo.util "config.json" "cfg".
Proof.
  apply (archived_json_is_valid Demo.util "pkg" (Some "out") "/cwd"
           "/tmp/tmpa" (Some Demo.full) ∅ "config.json" "cfg");
    by_computation.
Defined.

Lemma archived_images_are_png_witness :
  is_png Demo.util "PNG1" = true.
Proof.
  apply (archived_images_are_png Demo.util "pkg" (Some "out") "/cwd"
           "/tmp/tmpa" (Some Demo.full) ∅ "images/screenshots/s1.png" "PNG1");
    [reflexivity|by_computation].
Defined.

Lemma archive_members_from_manifest_witness :
  manifest_member "assets/uris/a.jar" = true.
Proof.
  apply (archive_members_from_manifest Demo.util "pkg" (Some "out") "/cwd"
           "/tmp/tmpa" (Some Demo.full) ∅ "assets/uris/a.jar" "A");
    by_computation.
Defined.

Lemma bundle_name_is_content_addressed_witness :
  ∃ doc name version archive,
    result (_validate_json_file Demo.util (path_join "pkg" "package.json")
              (entry (children (Some Demo.minimal)) "package.json"))
      = Return doc ∧
    subscript doc "name" = ret name ∧
    subscript doc "version" = ret version ∧
    archive = zip_bytes Demo.util [("package.json", "demo")] ∧
    let zip_file_name :=
      path_join "out"
        (format_value Demo.util name +:+ "-"
           +:+ format_value Demo.util version +:+ "-"
           +:+ hash_data Demo.util archive +:+ ".zip") in
    (∅ : gmap string string) !! zip_file_name = None ∧
    (_bundle Demo.util "pkg" (Some "out") "/cwd" "/tmp/tmpa"
       (Some Demo.minimal) ∅).1 = <[zip_file_name := archive]> ∅ ∧
    last [ZipWrite "package.json" "demo";
          created_message "out/demo-1.0-18.zip"]
      = Some (created_message zip_file_name) ∧
    0%Z = 0%Z.
Proof.
  apply (bundle_name_is_content_addressed Demo.util "pkg" (Some "out") "/cwd"
           "/tmp/tmpa" (Some Demo.minimal) ∅ _
           [ZipWrite "package.json" "demo";
            created_message "out/demo-1.0-18.zip"] 0%Z);
    [reflexivity|vm_compute; reflexivity].
Defined.

Lemma string_length_append (a b : string) :
  String.length (a +:+ b) = String.length a + String.length b.
Proof.
  induction a as [|c a IH]; [done|].
  change (String c a +:+ b) with (String c (a +:+ b)). simpl. by rewrite IH.
Qed.

Lemma hashfile_digest_of_whole_file_witness :
  _hashfile Demo.util "/tmp/tmpa" {["/tmp/tmpa" := "archive"]}
  = ({["/tmp/tmpa" := "archive"]},
     ret (sha256_hexdigest Demo.util
            (sha256_update Demo.util (sha256_new Demo.util) "archive"))).
Proof.
  apply (hashfile_digest_of_whole_file Demo.util "/tmp/tmpa" "archive"
           {["/tmp/tmpa" := "archive"]}).
  - intros h. simpl. lia.
  - intros h a b. simpl. rewrite string_length_append. lia.
  - reflexivity.
Defined.

Lemma confirm_loop_first_answer_witness :
  confirm_loop "Continue installing?" (["maybe"] ++ " No " :: ["yes"])
  = (flat_map (asked_again "Continue installing?") ["maybe"]
       ++ [StdoutWrite ("Continue installing?" +:+ " [yes/no] ")],
     Return false).
Proof.
  apply (confirm_loop_first_answer "Continue installing?" ["maybe"] " No "
           ["yes"] false); [|reflexivity].
  apply Forall_cons. split; [reflexivity|apply Forall_nil_2].
Defined.

Lemma confirm_loop_no_answer_witness :
  result (confirm_loop "Continue installing?" ["maybe"; "perhaps"]) = Hang.
Proof.
  apply (confirm_loop_no_answer "Continue installing?" ["maybe"; "perhaps"]).
  repeat (apply Forall_cons; split; [reflexivity|]). apply Forall_nil_2.
Defined.

Lemma install_scheduler_before_subcommand_witness :
  free is_app_install
    [Publish (PStr "New command available: dcos guarded")].
Proof.
  apply (install_scheduler_before_subcommand Demo.cluster "guarded" None None
           (Some "/beta") false false true []
           [ResolvePackage "guarded"; Publish (PStr "Beta software.");
            Publish (PStr "Installing Marathon app for package [guarded] version [2.0] with app id [/beta]");
            InstallApp "guarded" "0" (Some "/beta");
            Publish (PStr "Installing CLI subcommand for package [guarded] version [2.0]")]
           (InstallSubcommand "guarded" "0"));
    [vm_compute; reflexivity|reflexivity].
Defined.

Lemma install_scheduler_failure_stops_witness :
  let run :=
    _install Demo.refusing "guarded" None None None true true true [] in
  result run = Raise (DCOSException "App refused") ∧
  free is_subcommand_install (trace run).
Proof.
  exact (install_scheduler_failure_stops Demo.refusing "guarded" None None
           None true true true [] Demo.guarded Demo.guarded_latest (PDict ∅)
           (PDict ∅) (DCOSException "App refused")
           eq_refl eq_refl eq_refl eq_refl eq_refl eq_refl eq_refl).
Defined.

Lemma install_bad_options_touch_nothing_witness :
  _install Demo.cluster "guarded" None (Some "missing.json") None true true
    false []
  = ([ResolvePackage "guarded"], Raise (IOError "missing.json")).
Proof.
  destruct (install_bad_options_touch_nothing Demo.cluster "guarded" None
              (Some "missing.json") None true true false []
              Demo.guarded Demo.guarded_latest eq_refl eq_refl)
    as [Hunread _].
  exact (Hunread (IOError "missing.json") eq_refl).
Defined.

Lemma new_commands_message_witness :
  trace (install_subcommand_step Demo.cluster "cli-only" Demo.cli_only
           Demo.cli_only_latest (PDict ∅) (Some "1.0") true)
  = [Publish (PStr ("Installing CLI subcommand for package ["
                      +:+ "cli-only" +:+ "] version ["
                      +:+ format_opt (Some "1.0") +:+ "]"));
     InstallSubcommand "cli-only" "1"]
    ++ [Publish (PStr ("New command" +:+ "" +:+ " available: "
                         +:+ str_join ", " ["dcos cli-only"]))].
Proof.
  apply (new_commands_message Demo.cluster "cli-only" Demo.cli_only
           Demo.cli_only_latest (PDict ∅) (Some "1.0")
           "/home/.dcos/subcommands" [("dcos", "cli-only")]);
    [reflexivity|reflexivity| |reflexivity].
  apply Forall_cons. split; [by split_and!|apply Forall_nil_2].
Defined.

Lemma describe_package_versions_lists_witness :
  _describe Demo.cluster "cli-only" false false None false true None false
  = ([ResolvePackage "cli-only";
      Publish (PStr (str_join nl ["1.0"; "0.9"]))],
     Return 0%Z).
Proof.
  exact (describe_package_versions_lists Demo.cluster "cli-only" Demo.cli_only
           Demo.cli_only_latest eq_refl eq_refl
           (ex_intro _ (PStr "1.0") eq_refl)).
Defined.

Lemma list_by_name_witness :
  _list Demo.running false None (Some "spark")
  = ([PublishTable
        [PDict (<["name" := PStr "spark"]> {["apps" := PList [PStr "/spark"]]})]
        false],
     Return 0%Z).
Proof.
  apply (list_by_name Demo.running false (Some "spark")).
  intros _. repeat (apply Forall_cons; split; [by eexists|]).
  apply Forall_nil_2.
Defined.

Lemma list_by_app_id_witness :
  _list Demo.running false (Some "/chronos") None
  = ([PublishTable
        [PDict (<["apps" := PList [PStr "/chronos"]]>
                  (<["name" := PStr "chronos"]>
                     {["apps" := PList [PStr "/chronos"; PStr "/chronos-2"]]}))]
        false],
     Return 0%Z).
Proof.
  apply (list_by_app_id Demo.running false "/chronos"); [done|].
  repeat (apply Forall_cons; split; [by eexists|]). apply Forall_nil_2.
Defined.

Lemma search_no_packages_witness :
  _search Demo.index false None = raise (DCOSException "No packages found.").
Proof.
  rewrite (search_no_packages Demo.index false None
           [ {["source" := PStr "universe"; "packages" := PList []]};
             {["source" := PStr "local"; "packages" := PList []]} ]);
    [reflexivity|reflexivity|].
  repeat (apply Forall_cons; split; [by eexists|]). apply Forall_nil_2.
Defined.

Lemma main_list_type_error_escapes_witness :
  main (_list Demo.installed false (Some "/chronos") None)
  = ([], Raise type_error_none).
Proof.
  apply (main_list_type_error_escapes {["name" := PStr "helloworld"]}
           [ <["name" := PStr "chronos"]> {["apps" := PList [PStr "/chronos"]]} ]
           [] false "/chronos"); [reflexivity|].
  apply Forall_cons. split; [by eexists|apply Forall_nil_2].
Defined.

Lemma main_bad_log_level_witness :
  Launcher.main Demo.host
    {| Launcher.arg_log_level := Some "LOUD"; Launcher.arg_debug := true;
       Launcher.arg_command := Some "package";
       Launcher.arg_args := ["list"] |} ∅
  = (∅, ([Launcher.Say (Launcher.unknown_log_level Demo.host "loud")],
         Return 1%Z)).
Proof.
  apply (main_bad_log_level Demo.host _ "LOUD" ∅); [reflexivity|done|].
  intros Hin. apply (bool_decide_pack _) in Hin. vm_compute in Hin.
  exact Hin.
Defined.
